(** * Metricool MCP server

    A shallow embedding of [src/index.ts] (the tool dispatcher) and of
    [client.ts] (the Metricool API client), and the properties of the
    dispatcher's reshaping code.

    Representation choices, used throughout:
    - a JavaScript [number] holding a count, an id, an index or a score is an
      integer of [Z]; this is exact while the values and their partial sums
      stay below 2^53 in magnitude.  The totals of the analytics are also
      computed as the source does, with the IEEE 754 binary64 additions of
      [SpecFloat] ([totals64]), and shown to be the integer totals in that
      range ([totals64_exact]); the engagement rate is computed in binary64;
    - an optional property [f?: T] is an [option T]; [None] is [undefined];
    - a string is a [string], its characters being the UTF-16 code units up
      to U+00FF; [length] and [substring] count them;
    - the text produced by [JSON.stringify] is kept as the JSON document it
      denotes (type [json]), after the pruning that [JSON.stringify]
      performs on [undefined];
    - [await] is sequential composition: the handler runs one call at a
      time through the state-and-exception monad [M]. *)

From Stdlib Require Import ZArith List String Ascii Bool Lia.
From Stdlib Require Import Sorting.Sorted Sorting.Permutation.
From Stdlib Require Import Numbers.DecimalString Floats.SpecFloat.
Import ListNotations.

#[local] Set Warnings "-register-all".
#[local] Open Scope list_scope.
#[local] Open Scope string_scope.
#[local] Open Scope Z_scope.

(* ================================================================== *)
(** * The JavaScript run-time notions the source relies on *)
(* ================================================================== *)

Module Js.

Definition number := Z.

(** [ToBoolean]: the falsy values are [undefined], [0] and the empty
    string. *)
Class ToBoolean (A : Type) := toBoolean : A -> bool.

#[export] Instance ToBoolean_number : ToBoolean number :=
  fun n => negb (n =? 0).

#[export] Instance ToBoolean_string : ToBoolean string :=
  fun s => negb (s =? "")%string.

#[export] Instance ToBoolean_option {A} `{ToBoolean A} : ToBoolean (option A) :=
  fun o => match o with Some a => toBoolean a | None => false end.

(** [a || b] where both operands may be [undefined]. *)
Definition or_opt {A} `{ToBoolean A} (a b : option A) : option A :=
  if toBoolean a then a else b.

(** [a || d] where the right operand is a definite value. *)
Definition or_else {A} `{ToBoolean A} (a : option A) (d : A) : A :=
  match a with
  | Some x => if toBoolean x then x else d
  | None => d
  end.

(** [a && s] for a string literal [s]: the left operand when it is falsy. *)
Definition and_then (a : option string) (s : string) : option string :=
  if toBoolean a then Some s else a.

(** [xs.filter(Boolean)] on an array of optional strings. *)
Fixpoint filter_Boolean (xs : list (option string)) : list string :=
  match xs with
  | [] => []
  | Some s :: r => if toBoolean s then s :: filter_Boolean r else filter_Boolean r
  | None :: r => filter_Boolean r
  end.

(** [String(n)] and [`${n}`] for an integer. *)
Definition Number_toString (n : number) : string :=
  NilZero.string_of_int (Z.to_int n).

(** [s.substring(0, n) + (s.length > n ? "..." : "")]. *)
Definition truncate (n : nat) (s : string) : string :=
  substring 0 n s ++ (if (n <? String.length s)%nat then "..." else "").

(** The same expression on a string given by its UTF-16 code units, for any
    type [U] of units; [dots] are the three units of ["..."]. *)
Definition truncate_units {U} (dots : list U) (n : nat) (s : list U) : list U :=
  (firstn n s ++ (if (n <? List.length s)%nat then dots else []))%list.

(** [s.replace(/-/g, "")]. *)
Fixpoint remove_hyphens (s : string) : string :=
  match s with
  | EmptyString => EmptyString
  | String c r => if (c =? "-")%char then remove_hyphens r
                  else String c (remove_hyphens r)
  end.

(** ** [Array.prototype.sort] with a comparator

    ECMAScript requires the sort to be stable; for a consistent comparator
    the result is then determined (lemma [stable_sort_unique] below), and
    the insertion sort computes it. *)
Section Sort.
Context {A : Type} (cmp : A -> A -> Z).

Fixpoint sort_insert (x : A) (l : list A) : list A :=
  match l with
  | [] => [x]
  | y :: r => if cmp x y <=? 0 then x :: y :: r else y :: sort_insert x r
  end.

Fixpoint Array_sort (l : list A) : list A :=
  match l with
  | [] => []
  | x :: r => sort_insert x (Array_sort r)
  end.
End Sort.

(** [xs.slice(0, n)]. *)
Definition slice0 {A} (n : nat) (xs : list A) : list A := firstn n xs.

(** ** Numbers as binary64 values, for the engagement rate and the totals *)

Definition prec := 53.
Definition emax := 1024.

Definition to_double (n : number) : spec_float :=
  binary_normalize prec emax n 0 false.

Definition fadd := SFadd prec emax.
Definition fdiv := SFdiv prec emax.
Definition fmul := SFmul prec emax.

(** The integer [n] nearest to [m * 2^e * 10^f]; of two nearest the larger. *)
Definition scaled_nearest (f : nat) (m : positive) (e : Z) : Z :=
  let q := Z.pos m * 10 ^ Z.of_nat f in
  if 0 <=? e then q * 2 ^ e
  else (2 * q + 2 ^ (- e)) / (2 * 2 ^ (- e)).

(** [m * 2^e >= 10^21]. *)
Definition at_least_1e21 (m : positive) (e : Z) : bool :=
  if 0 <=? e then 10 ^ 21 <=? Z.pos m * 2 ^ e
  else 10 ^ 21 * 2 ^ (- e) <=? Z.pos m.

Fixpoint zeros (k : nat) : string :=
  match k with O => "" | S k' => String "0" (zeros k') end.

(** Steps 9 and 10 of [Number.prototype.toFixed]: the decimal digits of
    [n], padded with zeros to [f + 1] digits, with the point before the
    last [f]. *)
Definition fixed_digits (f : nat) (n : Z) : string :=
  let m := Number_toString n in
  let k := String.length m in
  let m := if (k <=? f)%nat then zeros (f + 1 - k) ++ m else m in
  let k := String.length m in
  if (f =? 0)%nat then m
  else substring 0 (k - f) m ++ "." ++ substring (k - f) f m.

(** [x.toFixed(f)].  For [x >= 10^21] the standard defers to the shortest
    round-trip printing of the number, which is taken as the parameter
    [big]. *)
Definition Number_toFixed (big : spec_float -> string)
    (x : spec_float) (f : nat) : string :=
  match x with
  | S754_nan => "NaN"
  | S754_infinity false => "Infinity"
  | S754_infinity true => "-Infinity"
  | S754_zero _ => fixed_digits f 0
  | S754_finite s m e =>
      if at_least_1e21 m e then big x
      else (if s then "-" else "") ++ fixed_digits f (scaled_nearest f m e)
  end.

(** ** Values and [JSON.stringify] *)

Inductive value : Type :=
| VUndefined
| VNull
| VBool (b : bool)
| VNum (n : number)
| VStr (s : string)
| VArr (items : list value)
| VObj (props : list (string * value)).

Inductive json : Type :=
| JNull
| JBool (b : bool)
| JNum (n : number)
| JStr (s : string)
| JArr (items : list json)
| JObj (members : list (string * json)).

(** [JSON.stringify(v)]: [None] is [undefined].  A property whose value is
    [undefined] is left out; an [undefined] array element becomes [null]. *)
Fixpoint JSON_stringify (v : value) : option json :=
  match v with
  | VUndefined => None
  | VNull => Some JNull
  | VBool b => Some (JBool b)
  | VNum n => Some (JNum n)
  | VStr s => Some (JStr s)
  | VArr items =>
      Some (JArr (map (fun x => match JSON_stringify x with
                                | Some j => j
                                | None => JNull
                                end) items))
  | VObj props =>
      Some (JObj ((fix members (ps : list (string * value)) :=
                     match ps with
                     | [] => []
                     | (k, x) :: r =>
                         match JSON_stringify x with
                         | Some j => (k, j) :: members r
                         | None => members r
                         end
                     end) props))
  end.

(** Member lookup in a JSON object. *)
Fixpoint assoc {B} (k : string) (ms : list (string * B)) : option B :=
  match ms with
  | [] => None
  | (k', x) :: r => if (k =? k')%string then Some x else assoc k r
  end.

Definition member (k : string) (j : json) : option json :=
  match j with
  | JObj ms => assoc k ms
  | _ => None
  end.

(** [obj.k = v]: an existing property keeps its place, a new one goes last. *)
Fixpoint obj_set {B} (k : string) (v : B) (ps : list (string * B))
  : list (string * B) :=
  match ps with
  | [] => [(k, v)]
  | (k', x) :: r => if (k =? k')%string then (k, v) :: r
                    else (k', x) :: obj_set k v r
  end.

(** [{...base, ...extra}]: object spread. *)
Definition obj_spread {B} (base extra : list (string * B)) : list (string * B) :=
  fold_left (fun acc kv => obj_set (fst kv) (snd kv) acc) extra base.

(** Optional values as [value]s. *)
Definition opt_str (o : option string) : value :=
  match o with Some s => VStr s | None => VUndefined end.

Definition opt_num (o : option number) : value :=
  match o with Some n => VNum n | None => VUndefined end.

(** What a [throw] carries: an [Error] with its message, or another value. *)
Inductive thrown : Type :=
| Error (message : string)
| NonError.

End Js.
Export Js.

(* ================================================================== *)
(** * The API client ([client.ts]) *)
(* ================================================================== *)

Module MetricoolConfig.
Record t := { token : string; userId : string }.
End MetricoolConfig.

Module SchedulePostParams.
Record t := {
  brandId : string;
  text : string;
  dateTime : string;
  timezone : option string;
  network : option string;
  imageUrl : option string
}.
End SchedulePostParams.

Module AnalyticsParams.
Record t := {
  brandId : string;
  startDate : option string;
  endDate : option string
}.
End AnalyticsParams.

Module PublicationDate.
Record t := { dateTime : string; timezone : string }.
End PublicationDate.

Module Provider.
Record t := {
  network : string;
  status : string;
  detailedStatus : string;
  publicUrl : option string
}.
End Provider.

Module ScheduledPost.
Record t := {
  id : number;
  uuid : string;
  text : string;
  publicationDate : PublicationDate.t;
  providers : list Provider.t;
  draft : bool
}.
End ScheduledPost.

Module LinkedInPost.
Record t := {
  id : option string;
  postId : option string;
  text : option string;
  content : option string;
  publishedAt : option string;
  date : option string;
  impressions : option number;
  engagements : option number;
  engagement : option number;
  clicks : option number;
  likes : option number;
  comments : option number;
  shares : option number;
  reactions : option number
}.
End LinkedInPost.

Module Brand.
Record t := {
  id : number;
  label : string;
  twitter : option string;
  facebook : option string;
  instagram : option string;
  linkedinCompany : option string;
  youtube : option string;
  tiktok : option string;
  threads : option string;
  bluesky : option string
}.
End Brand.

Module BestTimeSlot.
Record t := { dayOfWeek : number; hour : number; score : number }.
End BestTimeSlot.

(** The type arguments at which [request<T>] is used. *)
Inductive shape : Type :=
| TBrands       (* Brand[] *)
| TCreated      (* { data: ScheduledPost } *)
| TScheduled    (* { data: ScheduledPost[] } *)
| TPosts        (* LinkedInPost[] *)
| TBestTimes    (* { data: BestTimeSlot[] } *)
| TUnknown.     (* the default, result unused *)

(** [{ data: A }]; the client guards the array-valued ones with [|| []], so
    [data] may be missing there. *)
Record envelope (A : Type) := { data : A }.
Arguments data {A} _.

Definition payload (s : shape) : Type :=
  match s with
  | TBrands => list Brand.t
  | TCreated => envelope ScheduledPost.t
  | TScheduled => envelope (option (list ScheduledPost.t))
  | TPosts => list LinkedInPost.t
  | TBestTimes => envelope (option (list BestTimeSlot.t))
  | TUnknown => unit
  end.

Module RequestInit.
Record t := {
  method : option string;
  body : option json;
  headers : option (list (string * string))
}.
Definition empty : t := {| method := None; body := None; headers := None |}.
End RequestInit.

(** One call of [fetch(url, init)]. *)
Module Request.
Record t := { url : string; init : RequestInit.t }.
End Request.

(** A [Response]: its status, its body as text, and what [json()] gives:
    the parsed body, or the error it throws. *)
Module Response.
Record t (T : Type) := { status : number; text : string; json : thrown + T }.
Arguments status {T} _.
Arguments text {T} _.
Arguments json {T} _.
(** [response.ok]: the status is in the range 200-299. *)
Definition ok {T} (r : t T) : bool := (200 <=? status r) && (status r <=? 299).
End Response.

(** What the program reads from outside: the network, the clock, and the
    library printers that are not modelled. *)
Record Env := {
  fetch : forall s : shape, Request.t -> thrown + Response.t (payload s);
  Date_now : Z;
  toISOString : Z -> string;
  URLSearchParams_toString : list (string * string) -> string;
  Number_toString_big : spec_float -> string
}.

(** ** The monad of the handler: the [fetch] calls made so far, and a result
    or a thrown value. *)
Definition M (A : Type) : Type := list Request.t -> list Request.t * (thrown + A).

Definition ret {A} (a : A) : M A := fun tr => (tr, inr a).
Definition throw {A} (e : thrown) : M A := fun tr => (tr, inl e).
Definition bind {A B} (c : M A) (k : A -> M B) : M B :=
  fun tr => match c tr with
            | (tr', inr a) => k a tr'
            | (tr', inl e) => (tr', inl e)
            end.
Definition try_catch {A} (c : M A) (h : thrown -> A) : list Request.t -> list Request.t * A :=
  fun tr => match c tr with
            | (tr', inr a) => (tr', a)
            | (tr', inl e) => (tr', h e)
            end.

Declare Scope M_scope.
Delimit Scope M_scope with M.
Notation "x <- c ;; k" := (bind c (fun x => k))
  (at level 100, c at next level, right associativity) : M_scope.
#[local] Open Scope M_scope.

Module MetricoolClient.
Section Client.
Variable env : Env.
Variable config : MetricoolConfig.t.

Definition baseUrl : string := "https://app.metricool.com/api".
Definition token := MetricoolConfig.token config.
Definition userId := MetricoolConfig.userId config.

(** [await fetch(url, init)]: the call is recorded, then answered. *)
Definition do_fetch (s : shape) (req : Request.t) : M (Response.t (payload s)) :=
  fun tr => (tr ++ [req], fetch env s req)%list.

Definition request (s : shape) (endpoint : string) (options : RequestInit.t)
  : M (payload s) :=
  let url := baseUrl ++ endpoint in
  response <- do_fetch s
    {| Request.url := url;
       Request.init :=
         {| RequestInit.method := RequestInit.method options;
            RequestInit.body := RequestInit.body options;
            RequestInit.headers :=
              Some (obj_spread
                      [("X-Mc-Auth", token); ("Content-Type", "application/json")]
                      (match RequestInit.headers options with
                       | Some h => h
                       | None => []
                       end)) |} |} ;;
  if negb (Response.ok response) then
    let errorText := Response.text response in
    throw (Error ("Metricool API error (" ++ Number_toString (Response.status response)
                    ++ "): " ++ errorText))
  else
    match Response.json response with
    | inr v => ret v
    | inl e => throw e
    end.

Definition getBrands : M (list Brand.t) :=
  request TBrands ("/admin/simpleProfiles?userId=" ++ userId) RequestInit.empty.

(** The object [body] of [schedulePost], before [JSON.stringify]. *)
Definition schedulePost_body (params : SchedulePostParams.t) : value :=
  let network := or_else (SchedulePostParams.network params) "linkedin" in
  let body :=
    [ ("text", VStr (SchedulePostParams.text params));
      ("publicationDate",
        VObj [ ("dateTime", VStr (SchedulePostParams.dateTime params));
               ("timezone", VStr (or_else (SchedulePostParams.timezone params)
                                          "America/Costa_Rica")) ]);
      ("providers", VArr [ VObj [ ("network", VStr network) ] ]);
      ("autoPublish", VBool true);
      ("linkedinData",
        if (network =? "linkedin")%string
        then VObj [ ("previewIncluded", VBool true); ("type", VStr "POST") ]
        else VUndefined) ] in
  match SchedulePostParams.imageUrl params with
  | Some u => if toBoolean u then VObj (obj_set "media" (VArr [VStr u]) body)
              else VObj body
  | None => VObj body
  end.

Definition schedulePost (params : SchedulePostParams.t) : M ScheduledPost.t :=
  let queryParams := URLSearchParams_toString env
    [ ("userId", userId); ("blogId", SchedulePostParams.brandId params) ] in
  response <- request TCreated ("/v2/scheduler/posts?" ++ queryParams)
    {| RequestInit.method := Some "POST";
       RequestInit.body := JSON_stringify (schedulePost_body params);
       RequestInit.headers := None |} ;;
  ret (data response).

Definition getScheduledPosts (brandId : string) : M (list ScheduledPost.t) :=
  let now := Date_now env in
  let sixtyDaysFromNow := now + 60 * 24 * 60 * 60 * 1000 in
  let formatDateTime := fun d => substring 0 19 (toISOString env d) in
  let params := URLSearchParams_toString env
    [ ("userId", userId); ("blogId", brandId);
      ("start", formatDateTime now); ("end", formatDateTime sixtyDaysFromNow);
      ("timezone", "America/Costa_Rica") ] in
  response <- request TScheduled ("/v2/scheduler/posts?" ++ params) RequestInit.empty ;;
  ret (match data response with Some l => l | None => [] end).

Definition getAnalytics (params : AnalyticsParams.t) : M (list LinkedInPost.t) :=
  let now := Date_now env in
  let thirtyDaysAgo := now - 30 * 24 * 60 * 60 * 1000 in
  let formatDate := fun d => remove_hyphens (substring 0 10 (toISOString env d)) in
  let startDate :=
    match AnalyticsParams.startDate params with
    | Some s => if toBoolean s then remove_hyphens s else formatDate thirtyDaysAgo
    | None => formatDate thirtyDaysAgo
    end in
  let endDate :=
    match AnalyticsParams.endDate params with
    | Some s => if toBoolean s then remove_hyphens s else formatDate now
    | None => formatDate now
    end in
  let searchParams := URLSearchParams_toString env
    [ ("userId", userId); ("blogId", AnalyticsParams.brandId params);
      ("start", startDate); ("end", endDate) ] in
  request TPosts ("/stats/linkedin/posts?" ++ searchParams) RequestInit.empty.

Definition getBestTime (brandId : string) : M (list BestTimeSlot.t) :=
  let params := URLSearchParams_toString env
    [ ("userId", userId); ("blogId", brandId) ] in
  response <- request TBestTimes ("/v2/scheduler/besttimes/linkedin?" ++ params)
                RequestInit.empty ;;
  ret (match data response with Some l => l | None => [] end).

Definition deleteScheduledPost (postId : string) : M unit :=
  _ <- request TUnknown ("/scheduler/post/" ++ postId ++ "?userId=" ++ userId)
         {| RequestInit.method := Some "DELETE";
            RequestInit.body := None;
            RequestInit.headers := None |} ;;
  ret tt.
End Client.
End MetricoolClient.

(* ================================================================== *)
(** * The tool dispatcher ([index.ts]) *)
(* ================================================================== *)

Module Tool.
Record t := { name : string; properties : list string; required : list string }.
End Tool.

Definition TOOLS : list Tool.t :=
  [ {| Tool.name := "metricool_get_brands";
       Tool.properties := [];
       Tool.required := [] |};
    {| Tool.name := "metricool_schedule_post";
       Tool.properties := ["brandId"; "text"; "dateTime"; "timezone"; "imageUrl"];
       Tool.required := ["brandId"; "text"; "dateTime"] |};
    {| Tool.name := "metricool_get_scheduled_posts";
       Tool.properties := ["brandId"];
       Tool.required := ["brandId"] |};
    {| Tool.name := "metricool_get_analytics";
       Tool.properties := ["brandId"; "startDate"; "endDate"];
       Tool.required := ["brandId"] |};
    {| Tool.name := "metricool_get_best_time";
       Tool.properties := ["brandId"];
       Tool.required := ["brandId"] |} ].

(** [typedArgs].  The three arguments read through the non-null assertion
    [typedArgs.x!] are those the schemas of the tools reading them declare
    required; they are taken as present. *)
Module Args.
Record t := {
  brandId : string;
  text : string;
  dateTime : string;
  timezone : option string;
  imageUrl : option string;
  startDate : option string;
  endDate : option string
}.
End Args.

Module TextContent.
Record t := { type : string; text : option json }.
End TextContent.

Module CallToolResult.
Record t := { content : list TextContent.t; isError : option bool }.
End CallToolResult.

(** [{ content: [{ type: "text", text: JSON.stringify(v) }] }], with
    [isError: true] when [failed]. *)
Definition text_result (failed : bool) (v : value) : CallToolResult.t :=
  {| CallToolResult.content :=
       [ {| TextContent.type := "text"; TextContent.text := JSON_stringify v |} ];
     CallToolResult.isError := if failed then Some true else None |}.

(** ** metricool_get_brands *)

Definition networks (b : Brand.t) : list string :=
  filter_Boolean
    [ and_then (Brand.linkedinCompany b) "linkedin";
      and_then (Brand.twitter b) "twitter";
      and_then (Brand.facebook b) "facebook";
      and_then (Brand.instagram b) "instagram";
      and_then (Brand.youtube b) "youtube";
      and_then (Brand.tiktok b) "tiktok";
      and_then (Brand.threads b) "threads";
      and_then (Brand.bluesky b) "bluesky" ].

Definition formattedBrand (b : Brand.t) : value :=
  VObj [ ("id", VStr (Number_toString (Brand.id b)));
         ("name", VStr (Brand.label b));
         ("networks", VArr (map VStr (networks b))) ].

Definition brands_payload (brands : list Brand.t) : value :=
  VObj [ ("success", VBool true); ("brands", VArr (map formattedBrand brands)) ].

(** ** metricool_schedule_post *)

Definition scheduled_payload (result : ScheduledPost.t) : value :=
  VObj [ ("success", VBool true);
         ("message", VStr "Post scheduled successfully");
         ("postId", VNum (ScheduledPost.id result));
         ("uuid", VStr (ScheduledPost.uuid result));
         ("scheduledDate",
           VStr (PublicationDate.dateTime (ScheduledPost.publicationDate result)));
         ("networks",
           VArr (map (fun p => VStr (Provider.network p))
                     (ScheduledPost.providers result))) ].

(** ** metricool_get_scheduled_posts *)

Definition isPending (p : ScheduledPost.t) : bool :=
  existsb (fun prov => (Provider.status prov =? "PENDING")%string)
          (ScheduledPost.providers p).

Definition pendingPosts (posts : list ScheduledPost.t) : list ScheduledPost.t :=
  filter isPending posts.

Definition pendingPost_view (p : ScheduledPost.t) : value :=
  VObj [ ("id", VNum (ScheduledPost.id p));
         ("uuid", VStr (ScheduledPost.uuid p));
         ("text", VStr (truncate 100 (ScheduledPost.text p)));
         ("scheduledDate",
           VStr (PublicationDate.dateTime (ScheduledPost.publicationDate p)));
         ("timezone",
           VStr (PublicationDate.timezone (ScheduledPost.publicationDate p)));
         ("networks",
           VArr (map (fun prov => VStr (Provider.network prov))
                     (ScheduledPost.providers p)));
         ("status",
           VStr (or_else (option_map Provider.detailedStatus
                                     (hd_error (ScheduledPost.providers p)))
                         "Unknown")) ].

Definition pending_payload (posts : list ScheduledPost.t) : value :=
  let pending := pendingPosts posts in
  VObj [ ("success", VBool true);
         ("count", VNum (Z.of_nat (List.length pending)));
         ("posts", VArr (map pendingPost_view pending)) ].

(** ** metricool_get_analytics *)

Module Totals.
Record t := {
  impressions : number;
  engagements : number;
  clicks : number;
  likes : number;
  comments : number;
  shares : number
}.
Definition zero : t :=
  {| impressions := 0; engagements := 0; clicks := 0;
     likes := 0; comments := 0; shares := 0 |}.
End Totals.

(** [p.engagements || p.engagement || 0]. *)
Definition engagementOf (p : LinkedInPost.t) : number :=
  or_else (or_opt (LinkedInPost.engagements p) (LinkedInPost.engagement p)) 0.

(** [p.likes || p.reactions || 0]. *)
Definition likesOf (p : LinkedInPost.t) : number :=
  or_else (or_opt (LinkedInPost.likes p) (LinkedInPost.reactions p)) 0.

(** The callback of [posts.reduce]. *)
Definition add_post (acc : Totals.t) (p : LinkedInPost.t) : Totals.t :=
  {| Totals.impressions := Totals.impressions acc + or_else (LinkedInPost.impressions p) 0;
     Totals.engagements := Totals.engagements acc + engagementOf p;
     Totals.clicks := Totals.clicks acc + or_else (LinkedInPost.clicks p) 0;
     Totals.likes := Totals.likes acc + likesOf p;
     Totals.comments := Totals.comments acc + or_else (LinkedInPost.comments p) 0;
     Totals.shares := Totals.shares acc + or_else (LinkedInPost.shares p) 0 |}.

Definition totals (posts : list LinkedInPost.t) : Totals.t :=
  fold_left add_post posts Totals.zero.

(** The same reduction on the binary64 values that the numbers are at run
    time: each [+] of the callback is an addition of binary64, rounding to
    nearest, and the records are taken from left to right.  A count [n] of a
    record is the binary64 value [to_double n] that parsing gives it, and
    [n || 0] is zero exactly when that value is. *)
Module Totals64.
Record t := {
  impressions : spec_float;
  engagements : spec_float;
  clicks : spec_float;
  likes : spec_float;
  comments : spec_float;
  shares : spec_float
}.
Definition zero : t :=
  {| impressions := to_double 0; engagements := to_double 0; clicks := to_double 0;
     likes := to_double 0; comments := to_double 0; shares := to_double 0 |}.
End Totals64.

Definition add_post64 (acc : Totals64.t) (p : LinkedInPost.t) : Totals64.t :=
  {| Totals64.impressions :=
       fadd (Totals64.impressions acc) (to_double (or_else (LinkedInPost.impressions p) 0));
     Totals64.engagements :=
       fadd (Totals64.engagements acc) (to_double (engagementOf p));
     Totals64.clicks :=
       fadd (Totals64.clicks acc) (to_double (or_else (LinkedInPost.clicks p) 0));
     Totals64.likes :=
       fadd (Totals64.likes acc) (to_double (likesOf p));
     Totals64.comments :=
       fadd (Totals64.comments acc) (to_double (or_else (LinkedInPost.comments p) 0));
     Totals64.shares :=
       fadd (Totals64.shares acc) (to_double (or_else (LinkedInPost.shares p) 0)) |}.

Definition totals64 (posts : list LinkedInPost.t) : Totals64.t :=
  fold_left add_post64 posts Totals64.zero.

(** [(totals.engagements / totals.impressions) * 100], in binary64. *)
Definition rate_value (t : Totals.t) : spec_float :=
  fmul (fdiv (to_double (Totals.engagements t)) (to_double (Totals.impressions t)))
       (to_double 100).

Definition engagementRate (big : spec_float -> string) (t : Totals.t) : string :=
  if Totals.impressions t >? 0
  then Number_toFixed big (rate_value t) 2
  else "0.00".

(** The comparator [(a, b) => (b.engagements || ...) - (a.engagements || ...)]. *)
Definition byEngagement (a b : LinkedInPost.t) : Z := engagementOf b - engagementOf a.

Definition topPost_view (p : LinkedInPost.t) : value :=
  let text := or_else (or_opt (LinkedInPost.text p) (LinkedInPost.content p)) "" in
  VObj [ ("id", opt_str (or_opt (LinkedInPost.id p) (LinkedInPost.postId p)));
         ("text", VStr (truncate 80 text));
         ("publishedAt",
           opt_str (or_opt (LinkedInPost.publishedAt p) (LinkedInPost.date p)));
         ("impressions", VNum (or_else (LinkedInPost.impressions p) 0));
         ("engagements", VNum (engagementOf p)) ].

(** [[...posts].sort(byEngagement).slice(0, 5)], on the array contents. *)
Definition topPosts (posts : list LinkedInPost.t) : list LinkedInPost.t :=
  slice0 5 (Array_sort byEngagement posts).

Definition analytics_payload (big : spec_float -> string)
    (posts : list LinkedInPost.t) : value :=
  let t := totals posts in
  VObj [ ("success", VBool true);
         ("summary",
           VObj [ ("impressions", VNum (Totals.impressions t));
                  ("engagements", VNum (Totals.engagements t));
                  ("engagementRate", VStr (engagementRate big t ++ "%"));
                  ("clicks", VNum (Totals.clicks t));
                  ("likes", VNum (Totals.likes t));
                  ("comments", VNum (Totals.comments t));
                  ("shares", VNum (Totals.shares t)) ]);
         ("postCount", VNum (Z.of_nat (List.length posts)));
         ("topPosts", VArr (map topPost_view (topPosts posts))) ].

(** ** metricool_get_best_time *)

Definition DAYS_OF_WEEK : list string :=
  ["Sunday"; "Monday"; "Tuesday"; "Wednesday"; "Thursday"; "Friday"; "Saturday"].

(** [arr[i]] for an integer index: [undefined] outside the array. *)
Definition index {A} (arr : list A) (i : number) : option A :=
  if i <? 0 then None else nth_error arr (Z.to_nat i).

Definition formatHour (hour : number) : string :=
  let suffix := if hour >=? 12 then "PM" else "AM" in
  let displayHour := if hour =? 0 then 12 else if hour >? 12 then hour - 12 else hour in
  Number_toString displayHour ++ ":00 " ++ suffix.

(** The comparator [(a, b) => b.score - a.score]. *)
Definition byScore (a b : BestTimeSlot.t) : Z := BestTimeSlot.score b - BestTimeSlot.score a.

Definition sortedSlots (slots : list BestTimeSlot.t) : list BestTimeSlot.t :=
  Array_sort byScore slots.

Definition topSlots (slots : list BestTimeSlot.t) : list BestTimeSlot.t :=
  slice0 5 (sortedSlots slots).

Definition topSlot_view (s : BestTimeSlot.t) : value :=
  VObj [ ("day", opt_str (index DAYS_OF_WEEK (BestTimeSlot.dayOfWeek s)));
         ("time", VStr (formatHour (BestTimeSlot.hour s)));
         ("score", VNum (BestTimeSlot.score s)) ].

Definition bestTime_payload (slots : list BestTimeSlot.t) : value :=
  VObj [ ("success", VBool true);
         ("recommendation",
           VStr "Based on your audience engagement patterns, here are the best times to post:");
         ("topSlots", VArr (map topSlot_view (topSlots slots))) ].

(** ** The [CallToolRequestSchema] handler *)

Section Handler.
Variable env : Env.
Variable config : MetricoolConfig.t.

Let client_getBrands := MetricoolClient.getBrands env config.
Let client_schedulePost := MetricoolClient.schedulePost env config.
Let client_getScheduledPosts := MetricoolClient.getScheduledPosts env config.
Let client_getAnalytics := MetricoolClient.getAnalytics env config.
Let client_getBestTime := MetricoolClient.getBestTime env config.

(** The body of the [try] block: the [switch] on the tool name. *)
Definition dispatch (name : string) (typedArgs : Args.t) : M CallToolResult.t :=
  if (name =? "metricool_get_brands")%string then
    brands <- client_getBrands ;;
    ret (text_result false (brands_payload brands))
  else if (name =? "metricool_schedule_post")%string then
    result <- client_schedulePost
      {| SchedulePostParams.brandId := Args.brandId typedArgs;
         SchedulePostParams.text := Args.text typedArgs;
         SchedulePostParams.dateTime := Args.dateTime typedArgs;
         SchedulePostParams.timezone :=
           Some (or_else (Args.timezone typedArgs) "America/Costa_Rica");
         SchedulePostParams.network := None;
         SchedulePostParams.imageUrl := Args.imageUrl typedArgs |} ;;
    ret (text_result false (scheduled_payload result))
  else if (name =? "metricool_get_scheduled_posts")%string then
    posts <- client_getScheduledPosts (Args.brandId typedArgs) ;;
    ret (text_result false (pending_payload posts))
  else if (name =? "metricool_get_analytics")%string then
    posts <- client_getAnalytics
      {| AnalyticsParams.brandId := Args.brandId typedArgs;
         AnalyticsParams.startDate := Args.startDate typedArgs;
         AnalyticsParams.endDate := Args.endDate typedArgs |} ;;
    ret (text_result false (analytics_payload (Number_toString_big env) posts))
  else if (name =? "metricool_get_best_time")%string then
    slots <- client_getBestTime (Args.brandId typedArgs) ;;
    ret (text_result false (bestTime_payload slots))
  else
    ret (text_result true (VObj [ ("error", VStr ("Unknown tool: " ++ name)) ])).

(** The [catch] block. *)
Definition on_error (error : thrown) : CallToolResult.t :=
  let message := match error with
                 | Error m => m
                 | NonError => "Unknown error"
                 end in
  text_result true (VObj [ ("success", VBool false); ("error", VStr message) ]).

Definition callTool (name : string) (typedArgs : Args.t)
  : list Request.t -> list Request.t * CallToolResult.t :=
  try_catch (dispatch name typedArgs) on_error.
End Handler.

(* ================================================================== *)
(** * The store: arrays and objects behind references

    The lists above are the contents of JavaScript arrays.  Whether the
    handler changes an array it was handed is a question about the store,
    where [sort] works in place and [[...a]], [slice] and [map] allocate.
    A reference is an index into the store; cells are only ever added at
    the end. *)
(* ================================================================== *)

Module Store.
Section Store.
Context {E : Type}.   (* the fetched entities: posts, or slots *)

Definition ref := nat.

Inductive cell : Type :=
  | Entity (e : E)               (* an object parsed from the response *)
  | View (v : value)             (* an object literal built by the handler *)
  | Arr (elems : list ref).      (* an array of object references *)

Definition heap := list cell.

Definition arr_at (h : heap) (a : ref) : option (list ref) :=
  match nth_error h a with Some (Arr rs) => Some rs | _ => None end.

Definition entity_at (h : heap) (r : ref) : option E :=
  match nth_error h r with Some (Entity e) => Some e | _ => None end.

Definition view_at (h : heap) (r : ref) : option value :=
  match nth_error h r with Some (View v) => Some v | _ => None end.

Fixpoint all_at {B} (look : ref -> option B) (rs : list ref) : option (list B) :=
  match rs with
  | [] => Some []
  | r :: rs' =>
      match look r, all_at look rs' with
      | Some b, Some bs => Some (b :: bs)
      | _, _ => None
      end
  end.

(** The entities an array of the store lists, in order. *)
Definition elements (h : heap) (a : ref) : option (list E) :=
  match arr_at h a with
  | Some rs => all_at (entity_at h) rs
  | None => None
  end.

(** The object literals an array of the store lists, in order. *)
Definition views (h : heap) (a : ref) : option (list value) :=
  match arr_at h a with
  | Some rs => all_at (view_at h) rs
  | None => None
  end.

Fixpoint set_cell (r : ref) (c : cell) (h : heap) : heap :=
  match h, r with
  | [], _ => []
  | _ :: t, O => c :: t
  | x :: t, S r' => x :: set_cell r' c t
  end.

(** Store-passing computations; [None] is a dangling or ill-typed
    reference, which a well-formed store rules out. *)
Definition H (A : Type) : Type := heap -> option (heap * A).

Definition hret {A} (a : A) : H A := fun h => Some (h, a).
Definition hbind {A B} (c : H A) (k : A -> H B) : H B :=
  fun h => match c h with
           | Some (h', a) => k a h'
           | None => None
           end.

Definition alloc (c : cell) : H ref :=
  fun h => Some ((h ++ [c])%list, List.length h).

(** [[...a]]: a new array with the same elements. *)
Definition spread (a : ref) : H ref :=
  fun h => match arr_at h a with
           | Some rs => alloc (Arr rs) h
           | None => None
           end.

(** [a.sort(cmp)]: the array [a] itself is reordered, and returned. *)
Definition sort_in_place (cmp : E -> E -> Z) (a : ref) : H ref :=
  fun h => match arr_at h a with
           | Some rs =>
               match all_at (entity_at h) rs with
               | Some es =>
                   let sorted :=
                     Array_sort (fun x y => cmp (snd x) (snd y)) (combine rs es) in
                   Some (set_cell a (Arr (map fst sorted)) h, a)
               | None => None
               end
           | None => None
           end.

(** [a.slice(0, n)]: a new array. *)
Definition slice (n : nat) (a : ref) : H ref :=
  fun h => match arr_at h a with
           | Some rs => alloc (Arr (slice0 n rs)) h
           | None => None
           end.

Fixpoint alloc_views (f : E -> value) (es : list E) : H (list ref) :=
  match es with
  | [] => hret []
  | e :: es' =>
      hbind (alloc (View (f e))) (fun r =>
      hbind (alloc_views f es') (fun rs => hret (r :: rs)))
  end.

(** [a.map(f)] where [f] returns an object literal: a new array of new
    objects. *)
Definition map_view (f : E -> value) (a : ref) : H ref :=
  fun h => match elements h a with
           | Some es => hbind (alloc_views f es) (fun rs => alloc (Arr rs)) h
           | None => None
           end.

(** [[...a].sort(cmp).slice(0, n).map(f)]: the shape of both top-five
    computations of the handler. *)
Definition top_views (cmp : E -> E -> Z) (n : nat) (f : E -> value) (a : ref) : H ref :=
  hbind (spread a) (fun copy =>
  hbind (sort_in_place cmp copy) (fun sorted =>
  hbind (slice n sorted) (fun top =>
  map_view f top))).

(** [a.reduce(f, init)] with a callback that only reads its arguments. *)
Definition reduce {B} (f : B -> E -> B) (init : B) (a : ref) : H B :=
  fun h => match elements h a with
           | Some es => Some (h, fold_left f es init)
           | None => None
           end.

(** [a.filter(keep)]: a new array of the references that pass. *)
Definition filter (keep : E -> bool) (a : ref) : H ref :=
  fun h => match arr_at h a with
           | Some rs =>
               match all_at (entity_at h) rs with
               | Some es =>
                   alloc (Arr (map fst (List.filter (fun re => keep (snd re))
                                                    (combine rs es)))) h
               | None => None
               end
           | None => None
           end.

(** [h'] keeps every cell of [h] as it is. *)
Definition preserves (h h' : heap) : Prop :=
  forall r, (r < List.length h)%nat -> nth_error h' r = nth_error h r.

(** The reference [fst re] holds the entity [snd re]. *)
Definition points_to (h : heap) (re : ref * E) : Prop :=
  entity_at h (fst re) = Some (snd re).
End Store.
Arguments cell : clear implicits.
Arguments heap : clear implicits.
Arguments H : clear implicits.

(** [topSlots.map(...)] of the best-time case, on the store:
    [[...slots].sort(byScore)], [sortedSlots.slice(0, 5)], [topSlots.map]. *)
Definition bestTime_views (slots : ref) : H BestTimeSlot.t ref :=
  top_views byScore 5 topSlot_view slots.

(** The analytics case, on the store: [posts.reduce(...)], then
    [[...posts].sort(byEngagement).slice(0, 5).map(...)]. *)
Definition analytics_views (posts : ref) : H LinkedInPost.t (Totals.t * ref) :=
  hbind (reduce add_post Totals.zero posts) (fun t =>
  hbind (top_views byEngagement 5 topPost_view posts) (fun top =>
  hret (t, top))).

(** The scheduled-posts case, on the store: [posts.filter(...)], then
    [pendingPosts.map(...)]. *)
Definition pending_views (posts : ref) : H ScheduledPost.t ref :=
  hbind (filter isPending posts) (fun pending =>
  map_view pendingPost_view pending).

(** The brands case, on the store: [brands.map(...)]. *)
Definition brands_views (brands : ref) : H Brand.t ref :=
  map_view formattedBrand brands.
End Store.

(* ================================================================== *)
(** * Vocabulary of the statements *)
(* ================================================================== *)

(** The upstream answers every request for a [payload s] with a 2xx
    response whose body parses to [v]. *)
Definition answers (env : Env) (s : shape) (v : payload s) : Prop :=
  forall req, exists st txt,
    fetch env s req
      = inr {| Response.status := st; Response.text := txt; Response.json := inr v |}
    /\ 200 <= st <= 299.

(** The upstream answers every request with status [st] and body [body]. *)
Definition refuses (env : Env) (st : number) (body : string) : Prop :=
  forall s req, exists j,
    fetch env s req
      = inr {| Response.status := st; Response.text := body; Response.json := j |}.

(** [sub] occurs in [s]. *)
Definition contains (sub s : string) : Prop :=
  exists pre post, s = pre ++ sub ++ post.

Definition sum (l : list Z) : Z := fold_right Z.add 0 l.

(** A missing field counts as zero. *)
Definition or_zero (o : option number) : number :=
  match o with Some n => n | None => 0 end.

(** The first field, and the second only when the first is absent. *)
Definition first_present (a b : option number) : number :=
  match a with Some n => n | None => or_zero b end.

(** The first field, and the second when the first is absent or zero. *)
Definition first_nonzero (a b : option number) : number :=
  match a with
  | Some n => if n =? 0 then or_zero b else n
  | None => or_zero b
  end.


(** The magnitudes of the eight counts of a record, added up, and of the six
    fields of a record of totals. *)
Definition magnitude (p : LinkedInPost.t) : Z :=
  Z.abs (or_zero (LinkedInPost.impressions p))
  + Z.abs (or_zero (LinkedInPost.engagements p))
  + Z.abs (or_zero (LinkedInPost.engagement p))
  + Z.abs (or_zero (LinkedInPost.clicks p))
  + Z.abs (or_zero (LinkedInPost.likes p))
  + Z.abs (or_zero (LinkedInPost.reactions p))
  + Z.abs (or_zero (LinkedInPost.comments p))
  + Z.abs (or_zero (LinkedInPost.shares p)).

Definition Totals_magnitude (t : Totals.t) : Z :=
  Z.abs (Totals.impressions t) + Z.abs (Totals.engagements t) + Z.abs (Totals.clicks t)
  + Z.abs (Totals.likes t) + Z.abs (Totals.comments t) + Z.abs (Totals.shares t).

(** The counts of the records are integers whose magnitudes add up to less
    than 2^53: every sum of some of them is a binary64 value. *)
Definition counts_exact (posts : list LinkedInPost.t) : Prop :=
  sum (map magnitude posts) < 2 ^ 53.

(** Integer totals as the binary64 values they are at run time. *)
Definition to_double_totals (t : Totals.t) : Totals64.t :=
  {| Totals64.impressions := to_double (Totals.impressions t);
     Totals64.engagements := to_double (Totals.engagements t);
     Totals64.clicks := to_double (Totals.clicks t);
     Totals64.likes := to_double (Totals.likes t);
     Totals64.comments := to_double (Totals.comments t);
     Totals64.shares := to_double (Totals.shares t) |}.

(** The binary64 value with sign [s] of a positive integer [p] below 2^53:
    [p] shifted to 53 digits, with the exponent that undoes the shift. *)
Definition canon (s : bool) (p : positive) : spec_float :=
  S754_finite s (shift_nat (Z.to_nat (53 - Z.pos (digits2_pos p))) p)
              (Z.pos (digits2_pos p) - 53).

(** The JSON of a value in property or element position. *)
Definition to_json (v : value) : json :=
  match JSON_stringify v with Some j => j | None => JNull end.

(** The JSON document of the single text block of a result. *)
Definition document (r : CallToolResult.t) : option json :=
  match CallToolResult.content r with
  | [ c ] => TextContent.text c
  | _ => None
  end.

(** An error-flagged result whose text is the JSON object [payload]. *)
Definition error_result (payload : list (string * json)) : CallToolResult.t :=
  {| CallToolResult.content :=
       [ {| TextContent.type := "text"; TextContent.text := Some (JObj payload) |} ];
     CallToolResult.isError := Some true |}.

(** The comparator [(a, b) => key(b) - key(a)]. *)
Definition by_key_descending {A} (key : A -> Z) : A -> A -> Z :=
  fun a b => key b - key a.

(** Descending by [key], and the elements of one key value. *)
Definition descending {A} (key : A -> Z) : list A -> Prop :=
  StronglySorted (fun a b => key b <= key a).

Definition with_key {A} (key : A -> Z) (v : Z) (l : list A) : list A :=
  filter (fun a => key a =? v) l.

(** A handle that is present: the field is there, whatever it holds. *)
Definition present (h : option string) : bool :=
  match h with Some _ => true | None => false end.

(** A handle that is present and not the empty string. *)
Definition nonempty (h : option string) : bool :=
  match h with Some s => negb (s =? "")%string | None => false end.

(** The handle fields of a brand with the network each stands for, in the
    order of the output. *)
Definition handles (b : Brand.t) : list (string * option string) :=
  [ ("linkedin", Brand.linkedinCompany b);
    ("twitter", Brand.twitter b);
    ("facebook", Brand.facebook b);
    ("instagram", Brand.instagram b);
    ("youtube", Brand.youtube b);
    ("tiktok", Brand.tiktok b);
    ("threads", Brand.threads b);
    ("bluesky", Brand.bluesky b) ].

(** The networks whose handle passes [keep], in that order. *)
Definition networks_where (keep : option string -> bool) (b : Brand.t) : list string :=
  map fst (filter (fun nh => keep (snd nh)) (handles b)).

(** A post with at least one provider whose status is exactly "PENDING". *)
Definition has_pending (p : ScheduledPost.t) : Prop :=
  exists prov, In prov (ScheduledPost.providers p) /\ Provider.status prov = "PENDING".

Definition provider (n st : string) : Provider.t :=
  {| Provider.network := n; Provider.status := st;
     Provider.detailedStatus := st; Provider.publicUrl := None |}.

Definition post_with (i : number) (provs : list Provider.t) : ScheduledPost.t :=
  {| ScheduledPost.id := i; ScheduledPost.uuid := "u"; ScheduledPost.text := "hello";
     ScheduledPost.publicationDate :=
       {| PublicationDate.dateTime := "2024-01-15T10:00:00";
          PublicationDate.timezone := "America/Costa_Rica" |};
     ScheduledPost.providers := provs;
     ScheduledPost.draft := false |}.

Definition brand_with (tw li : option string) : Brand.t :=
  {| Brand.id := 12; Brand.label := "Acme";
     Brand.twitter := tw; Brand.facebook := None; Brand.instagram := None;
     Brand.linkedinCompany := li; Brand.youtube := None; Brand.tiktok := None;
     Brand.threads := None; Brand.bluesky := None |}.

(** Fixtures for the concrete instances. *)
Definition post0 : LinkedInPost.t :=
  {| LinkedInPost.id := None; LinkedInPost.postId := None;
     LinkedInPost.text := None; LinkedInPost.content := None;
     LinkedInPost.publishedAt := None; LinkedInPost.date := None;
     LinkedInPost.impressions := None; LinkedInPost.engagements := None;
     LinkedInPost.engagement := None; LinkedInPost.clicks := None;
     LinkedInPost.likes := None; LinkedInPost.comments := None;
     LinkedInPost.shares := None; LinkedInPost.reactions := None |}.

Definition with_counts (imp eng eng1 lik rea : option number) : LinkedInPost.t :=
  {| LinkedInPost.id := None; LinkedInPost.postId := None;
     LinkedInPost.text := None; LinkedInPost.content := None;
     LinkedInPost.publishedAt := None; LinkedInPost.date := None;
     LinkedInPost.impressions := imp; LinkedInPost.engagements := eng;
     LinkedInPost.engagement := eng1; LinkedInPost.clicks := None;
     LinkedInPost.likes := lik; LinkedInPost.comments := None;
     LinkedInPost.shares := None; LinkedInPost.reactions := rea |}.

Definition slot (d h s : number) : BestTimeSlot.t :=
  {| BestTimeSlot.dayOfWeek := d; BestTimeSlot.hour := h; BestTimeSlot.score := s |}.

Definition sample_args : Args.t :=
  {| Args.brandId := "42"; Args.text := "hello"; Args.dateTime := "2024-01-15T10:00:00";
     Args.timezone := None; Args.imageUrl := None;
     Args.startDate := None; Args.endDate := None |}.

Definition a_config : MetricoolConfig.t :=
  {| MetricoolConfig.token := "secret"; MetricoolConfig.userId := "7" |}.

(** An upstream that answers 200 with the given bodies. *)
Definition upstream_ok (brands : list Brand.t) (created : ScheduledPost.t)
    (scheduled : list ScheduledPost.t) (posts : list LinkedInPost.t)
    (slots : list BestTimeSlot.t) : Env :=
  {| fetch := fun s _ =>
       inr {| Response.status := 200; Response.text := "";
              Response.json :=
                inr (match s return payload s with
                     | TBrands => brands
                     | TCreated => {| data := created |}
                     | TScheduled => {| data := Some scheduled |}
                     | TPosts => posts
                     | TBestTimes => {| data := Some slots |}
                     | TUnknown => tt
                     end) |};
     Date_now := 0;
     toISOString := fun _ => "1970-01-01T00:00:00.000Z";
     URLSearchParams_toString := fun _ => "";
     Number_toString_big := fun _ => "" |}.

(** An upstream that answers every request with [st] and [body]. *)
Definition upstream_status (st : number) (body : string) : Env :=
  {| fetch := fun s _ =>
       inr {| Response.status := st; Response.text := body;
              Response.json := inl (Error "Unexpected token") |};
     Date_now := 0;
     toISOString := fun _ => "1970-01-01T00:00:00.000Z";
     URLSearchParams_toString := fun _ => "";
     Number_toString_big := fun _ => "" |}.

Definition a_post : ScheduledPost.t :=
  {| ScheduledPost.id := 1; ScheduledPost.uuid := "u-1"; ScheduledPost.text := "hello";
     ScheduledPost.publicationDate :=
       {| PublicationDate.dateTime := "2024-01-15T10:00:00";
          PublicationDate.timezone := "America/Costa_Rica" |};
     ScheduledPost.providers := [];
     ScheduledPost.draft := false |}.

(** ** Start-up ([index.ts], before the server is built)

    The two environment variables are read; when either is missing or empty
    the process prints a message and exits with code 1, otherwise the client
    is built from them. *)
Inductive startup : Type :=
| Exit (message : string) (code : number)
| Serving (config : MetricoolConfig.t).

Definition start (METRICOOL_TOKEN METRICOOL_USER_ID : option string) : startup :=
  if negb (toBoolean METRICOOL_TOKEN) || negb (toBoolean METRICOOL_USER_ID) then
    Exit "Error: METRICOOL_TOKEN and METRICOOL_USER_ID environment variables are required" 1
  else
    Serving {| MetricoolConfig.token :=
                 match METRICOOL_TOKEN with Some t => t | None => "" end;
               MetricoolConfig.userId :=
                 match METRICOOL_USER_ID with Some u => u | None => "" end |}.

(** ** Vocabulary of the further properties *)

(** The number of hyphens of a string. *)
Fixpoint hyphens (s : string) : nat :=
  match s with
  | EmptyString => O
  | String c r => if (c =? "-")%char then S (hyphens r) else hyphens r
  end.

(** [s] begins with [pre]. *)
Definition starts_with (pre s : string) : Prop := exists rest, s = pre ++ rest.

(** The two headers every call of [request] sets. *)
Definition auth_headers (config : MetricoolConfig.t) : list (string * string) :=
  [ ("X-Mc-Auth", MetricoolConfig.token config); ("Content-Type", "application/json") ].

(** The call of [fetch] that [request] makes for an endpoint and options. *)
Definition sent_request (config : MetricoolConfig.t) (endpoint : string)
    (options : RequestInit.t) : Request.t :=
  {| Request.url := MetricoolClient.baseUrl ++ endpoint;
     Request.init :=
       {| RequestInit.method := RequestInit.method options;
          RequestInit.body := RequestInit.body options;
          RequestInit.headers :=
            Some (obj_spread (auth_headers config)
                    (match RequestInit.headers options with
                     | Some h => h
                     | None => []
                     end)) |} |}.

(** After the calls of [tr], one more call of [fetch] was made, with the
    [X-Mc-Auth] header holding [t]. *)
Definition sends_token (t : string) (tr after : list Request.t) : Prop :=
  exists req,
    after = (tr ++ [req])%list
    /\ option_map (assoc "X-Mc-Auth") (RequestInit.headers (Request.init req))
       = Some (Some t).

(** The name is one of the catalog. *)
Definition in_catalog (name : string) : bool :=
  existsb (String.eqb name) (map Tool.name TOOLS).

(** Field by field addition of totals. *)
Definition Totals_plus (a b : Totals.t) : Totals.t :=
  {| Totals.impressions := Totals.impressions a + Totals.impressions b;
     Totals.engagements := Totals.engagements a + Totals.engagements b;
     Totals.clicks := Totals.clicks a + Totals.clicks b;
     Totals.likes := Totals.likes a + Totals.likes b;
     Totals.comments := Totals.comments a + Totals.comments b;
     Totals.shares := Totals.shares a + Totals.shares b |}.

(** Field by field addition of binary64 totals. *)
Definition Totals64_plus (a b : Totals64.t) : Totals64.t :=
  {| Totals64.impressions := fadd (Totals64.impressions a) (Totals64.impressions b);
     Totals64.engagements := fadd (Totals64.engagements a) (Totals64.engagements b);
     Totals64.clicks := fadd (Totals64.clicks a) (Totals64.clicks b);
     Totals64.likes := fadd (Totals64.likes a) (Totals64.likes b);
     Totals64.comments := fadd (Totals64.comments a) (Totals64.comments b);
     Totals64.shares := fadd (Totals64.shares a) (Totals64.shares b) |}.

(** The eight network names of the brands listing, in its order. *)
Definition network_names : list string :=
  ["linkedin"; "twitter"; "facebook"; "instagram"; "youtube"; "tiktok"; "threads"; "bluesky"].

(** An upstream given by its answer for each response type. *)
Definition upstream_with
    (answer : forall s : shape, thrown + Response.t (payload s)) : Env :=
  {| fetch := fun s _ => answer s;
     Date_now := 1700000000000;
     toISOString := fun _ => "2023-11-14T22:13:20.000Z";
     URLSearchParams_toString := fun _ => "";
     Number_toString_big := fun _ => "" |}.

(** [fetch] itself fails, throwing [e]. *)
Definition upstream_throws (e : thrown) : Env := upstream_with (fun _ => inl e).

(** A 2xx answer whose body does not parse: [json()] throws [e]. *)
Definition upstream_unparsable (st : number) (e : thrown) : Env :=
  upstream_with (fun _ =>
    inr {| Response.status := st; Response.text := ""; Response.json := inl e |}).

(** A 200 answer whose envelope has no [data]. *)
Definition upstream_no_data : Env :=
  upstream_with (fun s =>
    inr {| Response.status := 200; Response.text := "{}";
           Response.json :=
             match s return thrown + payload s with
             | TBrands => inr []
             | TCreated => inl (Error "Unexpected end of JSON input")
             | TScheduled => inr {| data := None |}
             | TPosts => inr []
             | TBestTimes => inr {| data := None |}
             | TUnknown => inr tt
             end |}).

(** Every call fails by throwing [e]: either [fetch] throws it, or the
    answer is a 2xx response whose [json()] throws it. *)
Definition fails_with (env : Env) (e : thrown) : Prop :=
  forall s req,
    fetch env s req = inl e
    \/ exists st txt,
         200 <= st <= 299
         /\ fetch env s req
            = inr {| Response.status := st; Response.text := txt; Response.json := inl e |}.

(** What a call of [request] gives, from the answer of [fetch]. *)
Definition request_outcome {T} (answer : thrown + Response.t T) : thrown + T :=
  match answer with
  | inl e => inl e
  | inr r =>
      if Response.ok r then Response.json r
      else inl (Error ("Metricool API error (" ++ Number_toString (Response.status r)
                         ++ "): " ++ Response.text r))
  end.

Definition sample_args_with (tz img start stop : option string) : Args.t :=
  {| Args.brandId := "42"; Args.text := "hello"; Args.dateTime := "2024-01-15T10:00:00";
     Args.timezone := tz; Args.imageUrl := img;
     Args.startDate := start; Args.endDate := stop |}.

(* ================================================================== *)
(** * Properties *)
(* ================================================================== *)

(** ** The printers on known values *)

Example toFixed_known_values :
  let fixed := fun n d => Number_toFixed (fun _ => "") (fdiv (to_double n) (to_double d)) 2 in
  fixed 1 8 = "0.13"          (* 0.125: of two nearest, the larger *)
  /\ fixed 201 200 = "1.00"   (* 1.005 is below 1.005 in binary64 *)
  /\ fixed 2 3 = "0.67"
  /\ fixed (-1) 1000 = "-0.00"
  /\ fixed 0 5 = "0.00"
  /\ fixed 12345 1 = "12345.00".
Proof. repeat split. Qed.

Example formatHour_known_values :
  map formatHour [0; 1; 11; 12; 13; 23]
  = ["12:00 AM"; "1:00 AM"; "11:00 AM"; "12:00 PM"; "1:00 PM"; "11:00 PM"].
Proof. reflexivity. Qed.

(** ** The stable descending sort *)

Section SortByKey.
Context {A : Type} (key : A -> Z).

#[local] Abbreviation cmp := (by_key_descending key).

Lemma sort_insert_perm (c : A -> A -> Z) x l :
  Permutation (sort_insert c x l) (x :: l).
Proof.
  induction l as [|y r IH]; simpl; [reflexivity|].
  destruct (c x y <=? 0); [reflexivity|].
  rewrite IH. apply perm_swap.
Qed.

Lemma Array_sort_perm (c : A -> A -> Z) l : Permutation (Array_sort c l) l.
Proof.
  induction l as [|x r IH]; simpl; [reflexivity|].
  rewrite sort_insert_perm. now constructor.
Qed.

Lemma Array_sort_length (c : A -> A -> Z) l :
  List.length (Array_sort c l) = List.length l.
Proof. apply Permutation_length, Array_sort_perm. Qed.

Lemma sort_insert_descending x l :
  descending key l -> descending key (sort_insert cmp x l).
Proof.
  unfold descending, by_key_descending.
  induction l as [|y r IH]; simpl; intros Hs.
  - repeat constructor.
  - destruct (Z.leb_spec (key y - key x) 0) as [Hle|Hgt].
    + constructor; [assumption|].
      inversion Hs as [|? ? Hr Hall]; subst.
      constructor; [lia|].
      rewrite Forall_forall in *. intros z Hz. specialize (Hall z Hz). lia.
    + inversion Hs as [|? ? Hr Hall]; subst.
      constructor; [now apply IH|].
      rewrite Forall_forall in *. intros z Hz.
      apply (Permutation_in _ (sort_insert_perm _ x r)) in Hz.
      destruct Hz as [<-|Hz]; [lia|now apply Hall].
Qed.

Lemma Array_sort_descending l : descending key (Array_sort cmp l).
Proof.
  induction l as [|x r IH]; simpl.
  - constructor.
  - now apply sort_insert_descending.
Qed.

Lemma sort_insert_with_key v x l :
  with_key key v (sort_insert cmp x l) = with_key key v (x :: l).
Proof.
  unfold with_key, by_key_descending.
  induction l as [|y r IH]; simpl; [reflexivity|].
  destruct (Z.leb_spec (key y - key x) 0) as [Hle|Hgt]; [reflexivity|].
  simpl in *. rewrite IH.
  destruct (Z.eqb_spec (key x) v) as [Hx|Hx];
    destruct (Z.eqb_spec (key y) v) as [Hy|Hy]; try reflexivity; lia.
Qed.

(** Stability: the elements of equal key keep their input order. *)
Lemma Array_sort_stable v l :
  with_key key v (Array_sort cmp l) = with_key key v l.
Proof.
  induction l as [|x r IH]; simpl; [reflexivity|].
  rewrite sort_insert_with_key. unfold with_key in *. simpl. now rewrite IH.
Qed.

Lemma with_key_nil l : (forall v, with_key key v l = []) -> l = [].
Proof.
  destruct l as [|x r]; [reflexivity|]. intros Hf.
  specialize (Hf (key x)). unfold with_key in Hf. simpl in Hf.
  now rewrite Z.eqb_refl in Hf.
Qed.

Lemma with_key_head x r v :
  descending key (x :: r) -> with_key key v (x :: r) <> [] -> v <= key x.
Proof.
  unfold descending, with_key. intros Hs Hne. simpl in Hne.
  destruct (Z.eqb_spec (key x) v) as [->|Hx]; [lia|].
  inversion Hs as [|? ? Hr Hall]; subst.
  destruct (filter (fun a => key a =? v) r) as [|z t] eqn:Hf; [congruence|].
  assert (Hz : In z (filter (fun a => key a =? v) r)) by (rewrite Hf; now left).
  apply filter_In in Hz. destruct Hz as [Hz1 Hz2].
  rewrite Forall_forall in Hall. specialize (Hall z Hz1).
  apply Z.eqb_eq in Hz2. lia.
Qed.

(** A descending list is determined by its elements of each key, taken in
    order: a stable descending sort has one possible result. *)
Lemma descending_unique l1 l2 :
  descending key l1 -> descending key l2 ->
  (forall v, with_key key v l1 = with_key key v l2) -> l1 = l2.
Proof.
  revert l2. induction l1 as [|x r IH]; intros l2 H1 H2 Heq.
  - symmetry. apply with_key_nil. intros v. now rewrite <- Heq.
  - destruct l2 as [|y t].
    + apply with_key_nil. intros v. now rewrite Heq.
    + assert (Hxy : key x = key y).
      { apply Z.le_antisymm.
        - apply (with_key_head y t (key x) H2). rewrite <- Heq.
          unfold with_key. simpl. now rewrite Z.eqb_refl.
        - apply (with_key_head x r (key y) H1). rewrite Heq.
          unfold with_key. simpl. now rewrite Z.eqb_refl. }
      assert (Hhd : x = y).
      { specialize (Heq (key x)). unfold with_key in Heq. simpl in Heq.
        rewrite <- Hxy, Z.eqb_refl in Heq. congruence. }
      subst y. f_equal. apply IH.
      * now inversion H1.
      * now inversion H2.
      * intros v. specialize (Heq v). unfold with_key in *. simpl in Heq.
        destruct (key x =? v); congruence.
Qed.

Lemma stable_sort_unique l sorted :
  descending key sorted ->
  (forall v, with_key key v sorted = with_key key v l) ->
  sorted = Array_sort cmp l.
Proof.
  intros Hs Hst. apply descending_unique; [assumption|apply Array_sort_descending|].
  intros v. now rewrite Hst, Array_sort_stable.
Qed.
End SortByKey.

(** ** The client's [request] and the handler's cases *)

Section Dispatch.
Variable env : Env.
Variable config : MetricoolConfig.t.

Lemma request_answers s v endpoint options tr :
  answers env s v ->
  exists req,
    MetricoolClient.request env config s endpoint options tr
      = ((tr ++ [req])%list, inr v).
Proof.
  intros Ha. unfold MetricoolClient.request, bind, MetricoolClient.do_fetch.
  match goal with
  | |- context [fetch env s ?r] =>
      destruct (Ha r) as (st & txt & Hf & Hst); exists r; rewrite Hf
  end.
  unfold Response.ok. simpl.
  replace ((200 <=? st) && (st <=? 299))%bool with true; [reflexivity|].
  symmetry. apply andb_true_iff. split; apply Z.leb_le; lia.
Qed.

Lemma request_refused st body s endpoint options tr :
  refuses env st body -> ~ (200 <= st <= 299) ->
  exists req,
    MetricoolClient.request env config s endpoint options tr
      = ((tr ++ [req])%list,
         inl (Error ("Metricool API error (" ++ Number_toString st ++ "): " ++ body))).
Proof.
  intros Hr Hst. unfold MetricoolClient.request, bind, MetricoolClient.do_fetch.
  match goal with
  | |- context [fetch env s ?r] =>
      destruct (Hr s r) as (j & Hf); exists r; rewrite Hf
  end.
  unfold Response.ok. simpl.
  replace ((200 <=? st) && (st <=? 299))%bool with false; [reflexivity|].
  symmetry. apply andb_false_iff.
  destruct (Z.leb_spec 200 st); [right|left; reflexivity].
  apply Z.leb_gt. lia.
Qed.

Ltac run_request H :=
  unfold callTool, try_catch, dispatch; simpl;
  unfold bind,
    MetricoolClient.getBrands, MetricoolClient.schedulePost,
    MetricoolClient.getScheduledPosts, MetricoolClient.getAnalytics,
    MetricoolClient.getBestTime, MetricoolClient.deleteScheduledPost, bind;
  match goal with
  | |- context [MetricoolClient.request env config ?s ?e ?o ?tr] =>
      destruct (request_answers s _ e o tr H) as (req & Hreq);
      exists req; rewrite Hreq
  end;
  reflexivity.

Lemma callTool_get_brands brands typedArgs tr :
  answers env TBrands brands ->
  exists req,
    callTool env config "metricool_get_brands" typedArgs tr
      = ((tr ++ [req])%list, text_result false (brands_payload brands)).
Proof.
  intros Ha.
  run_request Ha.
Qed.

Lemma callTool_schedule_post created typedArgs tr :
  answers env TCreated {| data := created |} ->
  exists req,
    callTool env config "metricool_schedule_post" typedArgs tr
      = ((tr ++ [req])%list, text_result false (scheduled_payload created)).
Proof.
  intros Ha.
  run_request Ha.
Qed.

Lemma callTool_get_scheduled_posts posts typedArgs tr :
  answers env TScheduled {| data := Some posts |} ->
  exists req,
    callTool env config "metricool_get_scheduled_posts" typedArgs tr
      = ((tr ++ [req])%list, text_result false (pending_payload posts)).
Proof.
  intros Ha.
  run_request Ha.
Qed.

Lemma callTool_get_analytics posts typedArgs tr :
  answers env TPosts posts ->
  exists req,
    callTool env config "metricool_get_analytics" typedArgs tr
      = ((tr ++ [req])%list,
         text_result false (analytics_payload (Number_toString_big env) posts)).
Proof.
  intros Ha.
  run_request Ha.
Qed.

Lemma callTool_get_best_time slots typedArgs tr :
  answers env TBestTimes {| data := Some slots |} ->
  exists req,
    callTool env config "metricool_get_best_time" typedArgs tr
      = ((tr ++ [req])%list, text_result false (bestTime_payload slots)).
Proof.
  intros Ha.
  run_request Ha.
Qed.
End Dispatch.

(** ** Aggregation of the analytics records *)

Lemma or_else_zero (o : option number) : or_else o 0 = or_zero o.
Proof.
  destruct o as [n|]; simpl; [|reflexivity].
  unfold toBoolean, ToBoolean_number. destruct (Z.eqb_spec n 0); simpl; congruence.
Qed.

Lemma or_opt_nonzero (a b : option number) :
  or_else (or_opt a b) 0 = first_nonzero a b.
Proof.
  unfold or_opt, first_nonzero, or_else, or_zero,
    toBoolean, ToBoolean_option, toBoolean, ToBoolean_number.
  destruct a as [n|], b as [m|]; cbn;
    repeat match goal with
           | |- context [?x =? 0] => destruct (Z.eqb_spec x 0); cbn
           end;
    congruence.
Qed.

Lemma fold_add_post posts acc :
  fold_left add_post posts acc =
  {| Totals.impressions :=
       Totals.impressions acc + sum (map (fun p => or_zero (LinkedInPost.impressions p)) posts);
     Totals.engagements :=
       Totals.engagements acc
       + sum (map (fun p => first_nonzero (LinkedInPost.engagements p)
                                          (LinkedInPost.engagement p)) posts);
     Totals.clicks :=
       Totals.clicks acc + sum (map (fun p => or_zero (LinkedInPost.clicks p)) posts);
     Totals.likes :=
       Totals.likes acc
       + sum (map (fun p => first_nonzero (LinkedInPost.likes p)
                                          (LinkedInPost.reactions p)) posts);
     Totals.comments :=
       Totals.comments acc + sum (map (fun p => or_zero (LinkedInPost.comments p)) posts);
     Totals.shares :=
       Totals.shares acc + sum (map (fun p => or_zero (LinkedInPost.shares p)) posts) |}.
Proof.
  revert acc. induction posts as [|p r IH]; intros acc.
  - destruct acc; simpl. f_equal; lia.
  - cbn [fold_left map sum fold_right]. rewrite IH.
    unfold add_post, engagementOf, likesOf.
    cbn [Totals.impressions Totals.engagements Totals.clicks Totals.likes
         Totals.comments Totals.shares].
    rewrite !or_opt_nonzero, !or_else_zero. unfold sum. f_equal; lia.
Qed.

Lemma totals_sums posts :
  totals posts =
  {| Totals.impressions := sum (map (fun p => or_zero (LinkedInPost.impressions p)) posts);
     Totals.engagements :=
       sum (map (fun p => first_nonzero (LinkedInPost.engagements p)
                                        (LinkedInPost.engagement p)) posts);
     Totals.clicks := sum (map (fun p => or_zero (LinkedInPost.clicks p)) posts);
     Totals.likes :=
       sum (map (fun p => first_nonzero (LinkedInPost.likes p)
                                        (LinkedInPost.reactions p)) posts);
     Totals.comments := sum (map (fun p => or_zero (LinkedInPost.comments p)) posts);
     Totals.shares := sum (map (fun p => or_zero (LinkedInPost.shares p)) posts) |}.
Proof. unfold totals. now rewrite fold_add_post. Qed.

(** The members of the [summary] object of the analytics payload. *)
Lemma analytics_summary big posts :
  member "summary" (to_json (analytics_payload big posts)) =
  Some (JObj [ ("impressions", JNum (Totals.impressions (totals posts)));
               ("engagements", JNum (Totals.engagements (totals posts)));
               ("engagementRate", JStr (engagementRate big (totals posts) ++ "%"));
               ("clicks", JNum (Totals.clicks (totals posts)));
               ("likes", JNum (Totals.likes (totals posts)));
               ("comments", JNum (Totals.comments (totals posts)));
               ("shares", JNum (Totals.shares (totals posts))) ]).
Proof. reflexivity. Qed.

(** ** Binary64 addition of integers below 2^53

    An integer below 2^53 in magnitude is a binary64 value, and the binary64
    sum of two of them is their sum when that is below 2^53 too: the
    additions of the totals are then exact, whatever the order. *)

Lemma digits_shift n p :
  Z.pos (digits2_pos (shift_nat n p)) = Z.pos (digits2_pos p) + Z.of_nat n.
Proof.
  induction n as [|n IH]; [simpl; lia|].
  change (shift_nat (S n) p) with (xO (shift_nat n p)).
  cbn [digits2_pos]. rewrite Pos2Z.inj_succ, IH. lia.
Qed.

Lemma shift_nat_add n m p : shift_nat (n + m) p = shift_nat n (shift_nat m p).
Proof. induction n as [|n IH]; [reflexivity|]. simpl. now rewrite IH. Qed.

Lemma pos_shift_nat n p : Z.pos (shift_nat n p) = Z.pos p * 2 ^ Z.of_nat n.
Proof. rewrite shift_nat_correct, Zpower_nat_Z. lia. Qed.

Lemma iter_pos_nat {A} (f : A -> A) q x :
  iter_pos f q x = Nat.iter (Pos.to_nat q) f x.
Proof.
  revert x. induction q as [q IH|q IH|]; intros x; cbn [iter_pos].
  - rewrite !IH, Pos2Nat.inj_xI.
    replace (S (2 * Pos.to_nat q))%nat with (Pos.to_nat q + (Pos.to_nat q + 1))%nat by lia.
    rewrite !Nat.iter_add. reflexivity.
  - rewrite !IH, Pos2Nat.inj_xO.
    replace (2 * Pos.to_nat q)%nat with (Pos.to_nat q + Pos.to_nat q)%nat by lia.
    now rewrite Nat.iter_add.
  - reflexivity.
Qed.

Lemma shr_exact n p :
  Nat.iter n shr_1 {| shr_m := Z.pos (shift_nat n p); shr_r := false; shr_s := false |}
  = {| shr_m := Z.pos p; shr_r := false; shr_s := false |}.
Proof.
  induction n as [|n IH]; [reflexivity|].
  rewrite Nat.iter_succ_r.
  change (shift_nat (S n) p) with (xO (shift_nat n p)). cbn [shr_1 orb]. exact IH.
Qed.

(** Rounding a mantissa of 53 digits, given with [n] further zero bits. *)
Lemma round_aux_exact s m et n :
  Z.pos (digits2_pos m) = 53 -> -1074 <= et <= 971 ->
  binary_round_aux prec emax s (Z.pos (shift_nat n m)) (et - Z.of_nat n) loc_Exact
  = S754_finite s m et.
Proof.
  intros Hd Het. unfold binary_round_aux, shr_fexp.
  cbn [Zdigits2 shr_record_of_loc]. rewrite digits_shift, Hd.
  replace (fexp prec emax (53 + Z.of_nat n + (et - Z.of_nat n)) - (et - Z.of_nat n))
    with (Z.of_nat n) by (unfold fexp, emin, prec, emax; lia).
  assert (Hshr : shr {| shr_m := Z.pos (shift_nat n m); shr_r := false; shr_s := false |}
                     (et - Z.of_nat n) (Z.of_nat n)
                 = ({| shr_m := Z.pos m; shr_r := false; shr_s := false |}, et)).
  { destruct n as [|n].
    - cbn. f_equal. lia.
    - unfold shr. cbn [Z.of_nat]. rewrite iter_pos_nat, SuccNat2Pos.id_succ, shr_exact.
      f_equal. lia. }
  rewrite Hshr. cbn [shr_m loc_of_shr_record round_nearest_even Zdigits2 shr_record_of_loc].
  rewrite Hd.
  replace (fexp prec emax (53 + et) - et) with 0 by (unfold fexp, emin, prec, emax; lia).
  cbn [shr shr_m].
  replace (et <=? emax - prec) with true; [reflexivity|].
  symmetry. apply Z.leb_le. unfold emax, prec. lia.
Qed.

Lemma round_exact s p k :
  Z.pos (digits2_pos p) <= 53 ->
  binary_round prec emax s (shift_nat k p) (- Z.of_nat k)
  = S754_finite s (shift_nat (Z.to_nat (53 - Z.pos (digits2_pos p))) p)
                (Z.pos (digits2_pos p) - 53).
Proof.
  intros Hd. unfold binary_round. rewrite digits_shift.
  set (d := Z.pos (digits2_pos p)) in *.
  assert (Hdpos : 1 <= d) by (unfold d; lia).
  assert (Hdig0 : Z.pos (digits2_pos p) = d) by reflexivity.
  replace (fexp prec emax (d + Z.of_nat k + - Z.of_nat k)) with (d - 53)
    by (unfold fexp, emin, prec, emax; lia).
  set (j := Z.to_nat (53 - d)).
  assert (Hj : Z.of_nat j = 53 - d) by (unfold j; lia).
  assert (Hdig : Z.pos (digits2_pos (shift_nat j p)) = 53)
    by (rewrite digits_shift; fold d; lia).
  clearbody j. clearbody d.
  unfold shl_align.
  destruct (d - 53 - - Z.of_nat k) as [|q|q] eqn:E.
  - (* already aligned *)
    assert (k = j) by lia. subst k.
    replace (- Z.of_nat j) with (d - 53 - Z.of_nat 0%nat) by (cbn [Z.of_nat]; lia).
    change (shift_nat j p) with (shift_nat 0 (shift_nat j p)) at 1.
    apply round_aux_exact; [exact Hdig|lia].
  - (* more zero bits than needed: they are shifted out *)
    assert (Hk : (k = Pos.to_nat q + j)%nat) by lia.
    rewrite Hk, shift_nat_add.
    replace (- Z.of_nat (Pos.to_nat q + j)) with (d - 53 - Z.of_nat (Pos.to_nat q)) by lia.
    apply round_aux_exact; [exact Hdig|lia].
  - (* fewer: the mantissa is shifted left *)
    change (Pos.iter xO (shift_nat k p) q) with (shift_pos q (shift_nat k p)).
    rewrite shift_pos_nat, <- shift_nat_add.
    replace (Pos.to_nat q + k)%nat with j by lia.
    replace (d - 53) with (d - 53 - Z.of_nat 0%nat) at 1 by (cbn [Z.of_nat]; lia).
    change (shift_nat j p) with (shift_nat 0 (shift_nat j p)) at 1.
    apply round_aux_exact; [exact Hdig|lia].
Qed.

Lemma digits_lower p : 2 ^ (Z.pos (digits2_pos p) - 1) <= Z.pos p.
Proof.
  induction p as [p IH|p IH|]; cbn [digits2_pos]; [| |cbn; lia];
    rewrite Pos2Z.inj_succ;
    replace (Z.succ (Z.pos (digits2_pos p)) - 1) with (Z.succ (Z.pos (digits2_pos p) - 1)) by lia;
    rewrite Z.pow_succ_r by lia; lia.
Qed.

Lemma digits_le_53 p : Z.pos p < 2 ^ 53 -> Z.pos (digits2_pos p) <= 53.
Proof.
  intros Hp. destruct (Z_le_gt_dec (Z.pos (digits2_pos p)) 53) as [|Hgt]; [assumption|].
  pose proof (digits_lower p) as Hl.
  assert (2 ^ 53 <= 2 ^ (Z.pos (digits2_pos p) - 1)) by (apply Z.pow_le_mono_r; lia).
  lia.
Qed.

Lemma normalize_exact_pos s p k :
  Z.pos p < 2 ^ 53 ->
  binary_round prec emax s (shift_nat k p) (- Z.of_nat k) = canon s p.
Proof. intros Hp. apply round_exact, digits_le_53, Hp. Qed.

Lemma normalize_exact v k :
  Z.abs v < 2 ^ 53 ->
  binary_normalize prec emax (v * 2 ^ Z.of_nat k) (- Z.of_nat k) false = to_double v.
Proof.
  intros Hv. unfold to_double.
  destruct v as [|p|p].
  - reflexivity.
  - replace (Z.pos p * 2 ^ Z.of_nat k) with (Z.pos (shift_nat k p)) by apply pos_shift_nat.
    cbn [binary_normalize].
    rewrite (normalize_exact_pos false p k Hv).
    symmetry. exact (normalize_exact_pos false p 0 Hv).
  - replace (Z.neg p * 2 ^ Z.of_nat k) with (Z.neg (shift_nat k p))
      by (rewrite <- !Pos2Z.opp_pos, pos_shift_nat; lia).
    cbn [binary_normalize].
    rewrite (normalize_exact_pos true p k Hv).
    symmetry. exact (normalize_exact_pos true p 0 Hv).
Qed.

Lemma to_double_pos p : Z.pos p < 2 ^ 53 -> to_double (Z.pos p) = canon false p.
Proof. intros Hp. exact (normalize_exact_pos false p 0 Hp). Qed.

Lemma to_double_neg p : Z.pos p < 2 ^ 53 -> to_double (Z.neg p) = canon true p.
Proof. intros Hp. exact (normalize_exact_pos true p 0 Hp). Qed.

Lemma shl_align_fst m e e' :
  e' <= e -> fst (shl_align m e e') = shift_nat (Z.to_nat (e - e')) m.
Proof.
  intros He. unfold shl_align. destruct (e' - e) as [|q|q] eqn:E.
  - replace (e - e') with 0 by lia. reflexivity.
  - lia.
  - cbn [fst]. change (Pos.iter xO m q) with (shift_pos q m).
    rewrite shift_pos_nat. f_equal. lia.
Qed.

(** The aligned, signed mantissa of [canon s p] at exponent [e]. *)
Lemma aligned_mantissa s p e :
  Z.pos p < 2 ^ 53 -> e <= Z.pos (digits2_pos p) - 53 ->
  cond_Zopp s (Z.pos (fst (shl_align
        (shift_nat (Z.to_nat (53 - Z.pos (digits2_pos p))) p)
        (Z.pos (digits2_pos p) - 53) e)))
  = cond_Zopp s (Z.pos p) * 2 ^ (- e).
Proof.
  intros Hp He. pose proof (digits_le_53 p Hp) as Hd.
  rewrite shl_align_fst by exact He.
  rewrite <- shift_nat_add, pos_shift_nat.
  replace (Z.of_nat (Z.to_nat (Z.pos (digits2_pos p) - 53 - e)
                     + Z.to_nat (53 - Z.pos (digits2_pos p)))) with (- e) by lia.
  destruct s; cbn [cond_Zopp]; lia.
Qed.

Lemma fadd_canon sa pa sb pb :
  Z.pos pa < 2 ^ 53 -> Z.pos pb < 2 ^ 53 ->
  Z.abs (cond_Zopp sa (Z.pos pa) + cond_Zopp sb (Z.pos pb)) < 2 ^ 53 ->
  fadd (canon sa pa) (canon sb pb)
  = to_double (cond_Zopp sa (Z.pos pa) + cond_Zopp sb (Z.pos pb)).
Proof.
  intros Ha Hb Hab.
  pose proof (digits_le_53 pa Ha) as Hda. pose proof (digits_le_53 pb Hb) as Hdb.
  unfold fadd, canon. cbn [SFadd].
  set (ez := Z.min (Z.pos (digits2_pos pa) - 53) (Z.pos (digits2_pos pb) - 53)).
  rewrite (aligned_mantissa sa pa ez Ha) by (unfold ez; lia).
  rewrite (aligned_mantissa sb pb ez Hb) by (unfold ez; lia).
  rewrite <- Z.mul_add_distr_r.
  assert (Hez : ez <= 0) by (unfold ez; lia).
  replace ez with (- Z.of_nat (Z.to_nat (- ez))) at 2 by lia.
  replace (- ez) with (Z.of_nat (Z.to_nat (- ez))) at 1 by lia.
  apply normalize_exact, Hab.
Qed.

Lemma to_double_canon v :
  v <> 0 -> Z.abs v < 2 ^ 53 ->
  exists s p, v = cond_Zopp s (Z.pos p) /\ Z.pos p < 2 ^ 53 /\ to_double v = canon s p.
Proof.
  intros Hv Hb. destruct v as [|p|p]; [congruence| |].
  - exists false, p. repeat split; [exact Hb|apply to_double_pos, Hb].
  - exists true, p. repeat split; [exact Hb|apply to_double_neg, Hb].
Qed.

(** Below 2^53 the binary64 sum of two integers is their sum. *)
Lemma fadd_exact a b :
  Z.abs a < 2 ^ 53 -> Z.abs b < 2 ^ 53 -> Z.abs (a + b) < 2 ^ 53 ->
  fadd (to_double a) (to_double b) = to_double (a + b).
Proof.
  intros Ha Hb Hab.
  destruct (Z.eq_dec a 0) as [->|Na].
  - destruct (Z.eq_dec b 0) as [->|Nb]; [reflexivity|].
    destruct (to_double_canon b Nb Hb) as (s & p & -> & _ & E).
    rewrite Z.add_0_l, E. reflexivity.
  - destruct (to_double_canon a Na Ha) as (sa & pa & Ea & Hpa & E1).
    destruct (Z.eq_dec b 0) as [->|Nb].
    + rewrite Z.add_0_r, E1. reflexivity.
    + destruct (to_double_canon b Nb Hb) as (sb & pb & Eb & Hpb & E2).
      rewrite E1, E2. subst a b. apply fadd_canon; assumption.
Qed.

Lemma sum_cons x l : sum (x :: l) = x + sum l.
Proof. reflexivity. Qed.

Lemma magnitude_nonneg p : 0 <= magnitude p.
Proof. unfold magnitude. lia. Qed.

Lemma sum_magnitude_nonneg posts : 0 <= sum (map magnitude posts).
Proof.
  induction posts as [|p r IH]; [cbn; lia|].
  cbn [map]. rewrite sum_cons. pose proof (magnitude_nonneg p). lia.
Qed.

Lemma first_nonzero_bound a b :
  Z.abs (first_nonzero a b) <= Z.abs (or_zero a) + Z.abs (or_zero b).
Proof.
  unfold first_nonzero, or_zero.
  destruct a as [n|], b as [m|]; try destruct (Z.eqb_spec n 0); lia.
Qed.

(** The callback of the reduction, with the [||] chains read as sums of
    fields. *)
Lemma add_post_fields z p :
  add_post z p =
  {| Totals.impressions := Totals.impressions z + or_zero (LinkedInPost.impressions p);
     Totals.engagements :=
       Totals.engagements z
       + first_nonzero (LinkedInPost.engagements p) (LinkedInPost.engagement p);
     Totals.clicks := Totals.clicks z + or_zero (LinkedInPost.clicks p);
     Totals.likes :=
       Totals.likes z + first_nonzero (LinkedInPost.likes p) (LinkedInPost.reactions p);
     Totals.comments := Totals.comments z + or_zero (LinkedInPost.comments p);
     Totals.shares := Totals.shares z + or_zero (LinkedInPost.shares p) |}.
Proof.
  unfold add_post, engagementOf, likesOf.
  now rewrite !or_opt_nonzero, !or_else_zero.
Qed.

(** Treats every magnitude as a non-negative unknown. *)
Ltac abs_opaque :=
  repeat match goal with
         | H : context [Z.abs ?x] |- _ =>
             let a := fresh "a" in
             pose proof (Z.abs_nonneg x); set (a := Z.abs x) in *; clearbody a
         | |- context [Z.abs ?x] =>
             let a := fresh "a" in
             pose proof (Z.abs_nonneg x); set (a := Z.abs x) in *; clearbody a
         end.

Lemma add_post_magnitude z p :
  Totals_magnitude (add_post z p) <= Totals_magnitude z + magnitude p.
Proof.
  rewrite add_post_fields. unfold Totals_magnitude, magnitude.
  cbn [Totals.impressions Totals.engagements Totals.clicks Totals.likes
       Totals.comments Totals.shares].
  pose proof (first_nonzero_bound (LinkedInPost.engagements p) (LinkedInPost.engagement p)).
  pose proof (first_nonzero_bound (LinkedInPost.likes p) (LinkedInPost.reactions p)).
  repeat match goal with
         | |- context [Z.abs (?x + ?y)] =>
             pose proof (Z.abs_triangle x y);
             let a := fresh "a" in set (a := Z.abs (x + y)) in *; clearbody a
         end.
  abs_opaque. lia.
Qed.

Lemma fadd_step a c bound :
  Z.abs a + Z.abs c <= bound -> bound < 2 ^ 53 ->
  fadd (to_double a) (to_double c) = to_double (a + c).
Proof. intros H1 H2. apply fadd_exact; lia. Qed.

(** One step of the reduction: the binary64 callback on exact totals gives
    the exact totals of the integer callback. *)
Lemma add_post64_exact z p :
  Totals_magnitude z + magnitude p < 2 ^ 53 ->
  add_post64 (to_double_totals z) p = to_double_totals (add_post z p).
Proof.
  intros Hb. rewrite add_post_fields.
  unfold add_post64, to_double_totals, engagementOf, likesOf.
  cbn [Totals64.impressions Totals64.engagements Totals64.clicks Totals64.likes
       Totals64.comments Totals64.shares
       Totals.impressions Totals.engagements Totals.clicks Totals.likes
       Totals.comments Totals.shares].
  rewrite !or_opt_nonzero, !or_else_zero.
  pose proof (first_nonzero_bound (LinkedInPost.engagements p) (LinkedInPost.engagement p)).
  pose proof (first_nonzero_bound (LinkedInPost.likes p) (LinkedInPost.reactions p)).
  f_equal; apply (fadd_step _ _ (Totals_magnitude z + magnitude p)); try exact Hb;
    clear Hb; unfold Totals_magnitude, magnitude; abs_opaque; lia.
Qed.

Lemma fold_add_post64 posts z :
  Totals_magnitude z + sum (map magnitude posts) < 2 ^ 53 ->
  fold_left add_post64 posts (to_double_totals z)
  = to_double_totals (fold_left add_post posts z).
Proof.
  revert z. induction posts as [|p r IH]; intros z Hb; [reflexivity|].
  cbn [map] in Hb. rewrite sum_cons in Hb.
  pose proof (sum_magnitude_nonneg r) as Hr.
  pose proof (add_post_magnitude z p) as Hz.
  cbn [fold_left]. rewrite add_post64_exact by lia.
  apply IH. lia.
Qed.

(** While the counts stay in the exact range, the binary64 totals are the
    integer totals. *)
Lemma totals64_exact posts :
  counts_exact posts -> totals64 posts = to_double_totals (totals posts).
Proof.
  intros Hb. unfold totals64, totals.
  change Totals64.zero with (to_double_totals Totals.zero).
  apply fold_add_post64. exact Hb.
Qed.

Lemma fold_add_post_magnitude posts z :
  Totals_magnitude (fold_left add_post posts z)
  <= Totals_magnitude z + sum (map magnitude posts).
Proof.
  revert z. induction posts as [|p r IH]; intros z; [cbn; lia|].
  cbn [fold_left map]. rewrite sum_cons.
  pose proof (IH (add_post z p)). pose proof (add_post_magnitude z p). lia.
Qed.

Lemma totals_magnitude posts :
  Totals_magnitude (totals posts) <= sum (map magnitude posts).
Proof. exact (fold_add_post_magnitude posts Totals.zero). Qed.

(** C1, as stated: the likes of a record with [likes: 0, reactions: 3] would
    count as the zero of its [likes] field; the handler counts the three
    reactions. *)
Lemma likes_zero_falls_back_to_reactions :
  let p := with_counts None None None (Some 0) (Some 3) in
  sum (map (fun p => first_present (LinkedInPost.likes p) (LinkedInPost.reactions p)) [p]) = 0
  /\ Totals.likes (totals [p]) = 3
  /\ Totals.likes (totals [p])
     <> sum (map (fun p => first_present (LinkedInPost.likes p) (LinkedInPost.reactions p)) [p])
  /\ member "likes"
       (match member "summary" (to_json (analytics_payload (fun _ => "") [p])) with
        | Some s => s
        | None => JNull
        end) = Some (JNum 3).
Proof. repeat split. discriminate. Qed.

(** C1, amended: for records whose counts are integers with magnitudes
    adding up to less than 2^53, the summary of get-analytics carries the
    sums, over all returned records, of impressions, engagements, clicks,
    likes, comments and shares; a record contributes its [engagements]
    field, or its [engagement] field when the plural is absent or zero, its
    [likes] field, or its [reactions] field when [likes] is absent or zero,
    and zero for any field it lacks.  In that range the binary64 additions of
    the reduction, made from left to right, are exact: the totals it computes
    are the binary64 values of these sums.  For
    [{impressions:100, engagements:10}] and [{impressions:50, engagement:5}]
    the totals are 150 and 15. *)
Theorem analytics_totals_are_sums env config typedArgs tr posts :
  answers env TPosts posts ->
  counts_exact posts ->
  exists req result summary,
    callTool env config "metricool_get_analytics" typedArgs tr
      = ((tr ++ [req])%list, result)
    /\ CallToolResult.isError result = None
    /\ option_map (member "summary") (document result) = Some (Some summary)
    /\ member "impressions" summary
       = Some (JNum (sum (map (fun p => or_zero (LinkedInPost.impressions p)) posts)))
    /\ member "engagements" summary
       = Some (JNum (sum (map (fun p => first_nonzero (LinkedInPost.engagements p)
                                                      (LinkedInPost.engagement p)) posts)))
    /\ member "clicks" summary
       = Some (JNum (sum (map (fun p => or_zero (LinkedInPost.clicks p)) posts)))
    /\ member "likes" summary
       = Some (JNum (sum (map (fun p => first_nonzero (LinkedInPost.likes p)
                                                      (LinkedInPost.reactions p)) posts)))
    /\ member "comments" summary
       = Some (JNum (sum (map (fun p => or_zero (LinkedInPost.comments p)) posts)))
    /\ member "shares" summary
       = Some (JNum (sum (map (fun p => or_zero (LinkedInPost.shares p)) posts)))
    /\ totals64 posts
       = {| Totals64.impressions :=
              to_double (sum (map (fun p => or_zero (LinkedInPost.impressions p)) posts));
            Totals64.engagements :=
              to_double (sum (map (fun p => first_nonzero (LinkedInPost.engagements p)
                                                          (LinkedInPost.engagement p)) posts));
            Totals64.clicks :=
              to_double (sum (map (fun p => or_zero (LinkedInPost.clicks p)) posts));
            Totals64.likes :=
              to_double (sum (map (fun p => first_nonzero (LinkedInPost.likes p)
                                                          (LinkedInPost.reactions p)) posts));
            Totals64.comments :=
              to_double (sum (map (fun p => or_zero (LinkedInPost.comments p)) posts));
            Totals64.shares :=
              to_double (sum (map (fun p => or_zero (LinkedInPost.shares p)) posts)) |}
    /\ (let two := [ with_counts (Some 100) (Some 10) None None None;
                     with_counts (Some 50) None (Some 5) None None ] in
        Totals.impressions (totals two) = 150 /\ Totals.engagements (totals two) = 15
        /\ Totals64.impressions (totals64 two) = to_double 150
        /\ Totals64.engagements (totals64 two) = to_double 15).
Proof.
  intros Ha Hexact.
  destruct (callTool_get_analytics env config posts typedArgs tr Ha) as (req & Hcall).
  exists req. eexists. eexists. split; [exact Hcall|].
  split; [reflexivity|].
  split; [exact (f_equal Some (analytics_summary _ posts))|].
  rewrite (totals64_exact posts Hexact), totals_sums. repeat split.
Qed.

Lemma upstream_ok_posts brands created scheduled posts slots :
  answers (upstream_ok brands created scheduled posts slots) TPosts posts.
Proof. intros req. exists 200, "". split; [reflexivity|lia]. Qed.

Lemma analytics_totals_are_sums_witness :
  let two := [ with_counts (Some 100) (Some 10) None None None;
               with_counts (Some 50) None (Some 5) None None ] in
  answers (upstream_ok [] a_post [] two []) TPosts two
  /\ counts_exact two
  /\ (exists summary,
        member "impressions" summary = Some (JNum 150)
        /\ member "engagements" summary = Some (JNum 15))
  /\ Totals64.impressions (totals64 two) = to_double 150
  /\ Totals64.engagements (totals64 two) = to_double 15.
Proof.
  intros two.
  assert (Hexact : counts_exact two) by reflexivity.
  split; [apply upstream_ok_posts|]. split; [exact Hexact|].
  destruct (analytics_totals_are_sums (upstream_ok [] a_post [] two []) a_config sample_args [] two
              (upstream_ok_posts _ _ _ _ _) Hexact)
    as (req & result & summary & _ & _ & _ & Hi & He & _ & _ & _ & _ & H64 & _).
  split; [exists summary; split; [exact Hi|exact He]|].
  rewrite H64. split; reflexivity.
Defined.

(** ** The engagement rate *)

(** [scaled_nearest] is the rounding [toFixed] asks for: with [x = m * 2^e]
    and [d = 2^(-e)], the distance from [n] to [x * 10^f] is at most one
    half, and of two nearest integers the larger is taken. *)
Lemma scaled_nearest_spec f m e :
  e < 0 ->
  let n := scaled_nearest f m e in
  let d := 2 ^ (- e) in
  let q := Z.pos m * 10 ^ Z.of_nat f in
  2 * q - d < 2 * n * d <= 2 * q + d.
Proof.
  intros He n d q. subst n. unfold scaled_nearest.
  destruct (Z.leb_spec 0 e) as [Hle|_]; [lia|].
  fold q. fold d.
  assert (Hd : 0 < d) by (apply Z.pow_pos_nonneg; lia).
  pose proof (Z.div_mod (2 * q + d) (2 * d) ltac:(lia)) as Hdm.
  pose proof (Z.mod_pos_bound (2 * q + d) (2 * d) ltac:(lia)) as Hb.
  nia.
Qed.





(** ** The two top-five lists *)

Lemma stringify_views {A} (f : A -> value) (l : list A) :
  JSON_stringify (VArr (map f l)) = Some (JArr (map (fun a => to_json (f a)) l)).
Proof. simpl. now rewrite map_map. Qed.

Lemma bestTime_topSlots slots :
  member "topSlots" (to_json (bestTime_payload slots))
  = Some (JArr (map (fun s => to_json (topSlot_view s)) (topSlots slots))).
Proof.
  unfold to_json at 1. unfold bestTime_payload.
  simpl. now rewrite map_map.
Qed.


Lemma upstream_ok_slots brands created scheduled posts slots :
  answers (upstream_ok brands created scheduled posts slots) TBestTimes
          {| data := Some slots |}.
Proof. intros req. exists 200, "". split; [reflexivity|lia]. Qed.







(** ** The pending posts *)

Lemma isPending_iff p : isPending p = true <-> has_pending p.
Proof.
  unfold isPending, has_pending. rewrite existsb_exists.
  split; intros (prov & Hin & Hst); exists prov; split; try assumption.
  - now apply String.eqb_eq.
  - now apply String.eqb_eq.
Qed.

Lemma pending_members posts :
  member "count" (to_json (pending_payload posts))
    = Some (JNum (Z.of_nat (List.length (pendingPosts posts))))
  /\ member "posts" (to_json (pending_payload posts))
    = Some (JArr (map (fun p => to_json (pendingPost_view p)) (pendingPosts posts))).
Proof.
  unfold to_json at 1 3. unfold pending_payload. simpl.
  split; [reflexivity|]. now rewrite map_map.
Qed.

Lemma upstream_ok_scheduled brands created scheduled posts slots :
  answers (upstream_ok brands created scheduled posts slots) TScheduled
          {| data := Some scheduled |}.
Proof. intros req. exists 200, "". split; [reflexivity|lia]. Qed.

(** C5: get-scheduled-posts returns exactly the posts that have at least one
    provider whose status is the string "PENDING", compared exactly, in
    their order; a post whose providers all carry other statuses is left
    out; [count] is the number of posts returned. *)
Theorem scheduled_posts_pending_only env config typedArgs tr posts :
  answers env TScheduled {| data := Some posts |} ->
  exists kept req result,
    callTool env config "metricool_get_scheduled_posts" typedArgs tr
      = ((tr ++ [req])%list, result)
    /\ CallToolResult.isError result = None
    /\ option_map (member "posts") (document result)
       = Some (Some (JArr (map (fun p => to_json (pendingPost_view p)) kept)))
    /\ option_map (member "count") (document result)
       = Some (Some (JNum (Z.of_nat (List.length kept))))
    /\ (forall p, In p kept <-> In p posts /\ has_pending p)
    /\ (forall keep : ScheduledPost.t -> bool,
          (forall p, keep p = true <-> has_pending p) -> kept = filter keep posts)
    /\ (forall p,
          (forall prov, In prov (ScheduledPost.providers p) ->
                        Provider.status prov <> "PENDING") ->
          ~ In p kept).
Proof.
  intros Ha.
  destruct (callTool_get_scheduled_posts env config posts typedArgs tr Ha) as (req & Hcall).
  destruct (pending_members posts) as [Hcount Hposts].
  exists (pendingPosts posts), req. eexists.
  split; [exact Hcall|].
  split; [reflexivity|].
  split; [exact (f_equal Some Hposts)|].
  split; [exact (f_equal Some Hcount)|].
  split; [|split].
  - intros p. unfold pendingPosts. rewrite filter_In, isPending_iff. reflexivity.
  - intros keep Hkeep. unfold pendingPosts. apply filter_ext.
    intros p. destruct (keep p) eqn:Hk.
    + now apply isPending_iff, Hkeep.
    + destruct (isPending p) eqn:Hp; [|reflexivity].
      apply isPending_iff, Hkeep in Hp. congruence.
  - intros p Hnone Hin. unfold pendingPosts in Hin.
    apply filter_In in Hin. destruct Hin as [_ Hp].
    apply isPending_iff in Hp. destruct Hp as (prov & Hin & Hst).
    now apply (Hnone prov).
Qed.

Lemma scheduled_posts_pending_only_witness :
  let posts := [ post_with 1 [ provider "linkedin" "PUBLISHED" ];
                 post_with 2 [ provider "linkedin" "ERROR"; provider "twitter" "PENDING" ];
                 post_with 3 [ provider "linkedin" "pending" ];
                 post_with 4 [ provider "linkedin" "PENDING" ] ] in
  let env := upstream_ok [] a_post posts [] [] in
  answers env TScheduled {| data := Some posts |}
  /\ option_map (member "count")
       (document (snd (callTool env a_config "metricool_get_scheduled_posts" sample_args [])))
     = Some (Some (JNum 2)).
Proof.
  intros posts env. split; [apply upstream_ok_scheduled|].
  destruct (scheduled_posts_pending_only env a_config sample_args [] posts
              (upstream_ok_scheduled _ _ _ _ _))
    as (kept & req & result & Hcall & _ & _ & Hcount & _ & Hkept & _).
  rewrite Hcall. simpl snd. rewrite Hcount.
  rewrite (Hkept isPending isPending_iff). reflexivity.
Defined.

(** ** The networks of a brand *)

Lemma filter_Boolean_and_then h name rest :
  name <> "" ->
  filter_Boolean (and_then h name :: rest)
  = ((if nonempty h then [name] else []) ++ filter_Boolean rest)%list.
Proof.
  intros Hname. unfold and_then, nonempty.
  destruct h as [s|]; simpl; [|reflexivity].
  unfold toBoolean at 1, ToBoolean_option, toBoolean, ToBoolean_string.
  destruct (String.eqb_spec s "") as [->|Hs]; simpl; [reflexivity|].
  unfold toBoolean, ToBoolean_string.
  destruct (String.eqb_spec name ""); [contradiction|reflexivity].
Qed.

Lemma networks_nonempty b : networks b = networks_where nonempty b.
Proof.
  unfold networks, networks_where, handles.
  rewrite !filter_Boolean_and_then by discriminate.
  simpl.
  destruct (nonempty (Brand.linkedinCompany b)), (nonempty (Brand.twitter b)),
    (nonempty (Brand.facebook b)), (nonempty (Brand.instagram b)),
    (nonempty (Brand.youtube b)), (nonempty (Brand.tiktok b)),
    (nonempty (Brand.threads b)), (nonempty (Brand.bluesky b)); reflexivity.
Qed.

Lemma brands_member brands :
  member "brands" (to_json (brands_payload brands))
  = Some (JArr (map (fun b => to_json (formattedBrand b)) brands)).
Proof.
  unfold to_json at 1. unfold brands_payload. simpl. now rewrite map_map.
Qed.

Lemma formattedBrand_json b :
  to_json (formattedBrand b)
  = JObj [ ("id", JStr (Number_toString (Brand.id b)));
           ("name", JStr (Brand.label b));
           ("networks", JArr (map JStr (networks b))) ].
Proof.
  unfold to_json, formattedBrand. simpl. rewrite map_map. simpl.
  now rewrite map_ext with (g := JStr).
Qed.

Lemma upstream_ok_brands brands created scheduled posts slots :
  answers (upstream_ok brands created scheduled posts slots) TBrands brands.
Proof. intros req. exists 200, "". split; [reflexivity|lia]. Qed.

(** C8, as stated: a brand whose [twitter] field is present and holds the
    empty string would list "twitter"; the handler leaves it out. *)
Lemma empty_handle_not_listed :
  let b := brand_with (Some "") (Some "acme-inc") in
  present (Brand.twitter b) = true
  /\ networks_where present b = ["linkedin"; "twitter"]
  /\ networks b = ["linkedin"]
  /\ networks b <> networks_where present b
  /\ member "networks" (to_json (formattedBrand b)) = Some (JArr [JStr "linkedin"]).
Proof. repeat split. discriminate. Qed.

(** C8, amended: for every brand the client returns, get-brands outputs
    [{id, name, networks}] with the id as a decimal string, and [networks]
    holds exactly the names of the networks whose handle field is present
    and not empty, in the order linkedin (from [linkedinCompany]), twitter,
    facebook, instagram, youtube, tiktok, threads, bluesky. *)
Theorem brand_networks_listed env config typedArgs tr brands :
  answers env TBrands brands ->
  exists req result,
    callTool env config "metricool_get_brands" typedArgs tr
      = ((tr ++ [req])%list, result)
    /\ CallToolResult.isError result = None
    /\ option_map (member "brands") (document result)
       = Some (Some (JArr (map (fun b =>
           JObj [ ("id", JStr (Number_toString (Brand.id b)));
                  ("name", JStr (Brand.label b));
                  ("networks", JArr (map JStr (networks_where nonempty b))) ])
           brands))).
Proof.
  intros Ha.
  destruct (callTool_get_brands env config brands typedArgs tr Ha) as (req & Hcall).
  exists req. eexists.
  split; [exact Hcall|].
  split; [reflexivity|].
  change (document (text_result false (brands_payload brands)))
    with (Some (to_json (brands_payload brands))).
  cbn [option_map]. rewrite brands_member. do 3 f_equal.
  apply map_ext. intros b. rewrite formattedBrand_json. now rewrite networks_nonempty.
Qed.

Lemma brand_networks_listed_witness :
  let brands := [ brand_with (Some "acme") (Some "acme-inc"); brand_with None None ] in
  let env := upstream_ok brands a_post [] [] [] in
  answers env TBrands brands
  /\ option_map (member "brands")
       (document (snd (callTool env a_config "metricool_get_brands" sample_args [])))
     = Some (Some (JArr
         [ JObj [ ("id", JStr "12"); ("name", JStr "Acme");
                  ("networks", JArr [JStr "linkedin"; JStr "twitter"]) ];
           JObj [ ("id", JStr "12"); ("name", JStr "Acme"); ("networks", JArr []) ] ])).
Proof.
  intros brands env. split; [apply upstream_ok_brands|].
  destruct (brand_networks_listed env a_config sample_args [] brands
              (upstream_ok_brands _ _ _ _ _))
    as (req & result & Hcall & _ & Hdoc).
  rewrite Hcall. simpl snd. rewrite Hdoc. reflexivity.
Defined.

(** ** The weekday of a slot *)

Lemma topSlot_view_json s :
  to_json (topSlot_view s)
  = JObj (match index DAYS_OF_WEEK (BestTimeSlot.dayOfWeek s) with
          | Some d => [ ("day", JStr d) ]
          | None => []
          end
          ++ [ ("time", JStr (formatHour (BestTimeSlot.hour s)));
               ("score", JNum (BestTimeSlot.score s)) ])%list.
Proof.
  unfold to_json, topSlot_view.
  destruct (index DAYS_OF_WEEK (BestTimeSlot.dayOfWeek s)); reflexivity.
Qed.

Lemma index_in_range {A} (arr : list A) i :
  0 <= i < Z.of_nat (List.length arr) -> exists a, index arr i = Some a.
Proof.
  intros Hi. unfold index. destruct (Z.ltb_spec i 0); [lia|].
  destruct (nth_error arr (Z.to_nat i)) eqn:Hn; [now eexists|].
  apply nth_error_None in Hn. lia.
Qed.

Lemma index_out_of_range {A} (arr : list A) i :
  ~ (0 <= i < Z.of_nat (List.length arr)) -> index arr i = None.
Proof.
  intros Hi. unfold index. destruct (Z.ltb_spec i 0); [reflexivity|].
  apply nth_error_None. lia.
Qed.

(** C10: in get-best-time the weekday lookup is total.  A slot whose
    [dayOfWeek] is one of 0..6 gets the name of that day, Sunday to
    Saturday; for any other [dayOfWeek] nothing is raised, the [day] of the
    output slot is [undefined], so that its JSON has no [day] member, and the
    success payload is produced all the same. *)
Theorem weekday_lookup_total env config typedArgs tr slots :
  answers env TBestTimes {| data := Some slots |} ->
  (map (index DAYS_OF_WEEK) [0; 1; 2; 3; 4; 5; 6]
   = map Some ["Sunday"; "Monday"; "Tuesday"; "Wednesday"; "Thursday"; "Friday"; "Saturday"])
  /\ (forall s, 0 <= BestTimeSlot.dayOfWeek s <= 6 ->
        exists d, index DAYS_OF_WEEK (BestTimeSlot.dayOfWeek s) = Some d
                  /\ member "day" (to_json (topSlot_view s)) = Some (JStr d))
  /\ (forall s, ~ (0 <= BestTimeSlot.dayOfWeek s <= 6) ->
        index DAYS_OF_WEEK (BestTimeSlot.dayOfWeek s) = None
        /\ to_json (topSlot_view s)
           = JObj [ ("time", JStr (formatHour (BestTimeSlot.hour s)));
                    ("score", JNum (BestTimeSlot.score s)) ])
  /\ (exists req result,
        callTool env config "metricool_get_best_time" typedArgs tr
          = ((tr ++ [req])%list, result)
        /\ CallToolResult.isError result = None
        /\ option_map (member "success") (document result) = Some (Some (JBool true))
        /\ option_map (member "topSlots") (document result)
           = Some (Some (JArr (map (fun s => to_json (topSlot_view s)) (topSlots slots))))).
Proof.
  intros Ha. split; [reflexivity|]. split; [|split].
  - intros s Hd.
    destruct (index_in_range DAYS_OF_WEEK (BestTimeSlot.dayOfWeek s)) as (d & Hidx).
    { simpl. lia. }
    exists d. split; [exact Hidx|].
    rewrite topSlot_view_json, Hidx. reflexivity.
  - intros s Hd.
    assert (Hidx : index DAYS_OF_WEEK (BestTimeSlot.dayOfWeek s) = None).
    { apply index_out_of_range. simpl. lia. }
    split; [exact Hidx|].
    rewrite topSlot_view_json, Hidx. reflexivity.
  - destruct (callTool_get_best_time env config slots typedArgs tr Ha) as (req & Hcall).
    exists req. eexists.
    split; [exact Hcall|].
    split; [reflexivity|].
    split; [reflexivity|].
    exact (f_equal Some (bestTime_topSlots slots)).
Qed.

Lemma weekday_lookup_total_witness :
  let slots := [ slot 7 9 5; slot 0 0 3; slot (-1) 13 4 ] in
  let env := upstream_ok [] a_post [] [] slots in
  answers env TBestTimes {| data := Some slots |}
  /\ option_map (member "topSlots")
       (document (snd (callTool env a_config "metricool_get_best_time" sample_args [])))
     = Some (Some (JArr
         [ JObj [ ("time", JStr "9:00 AM"); ("score", JNum 5) ];
           JObj [ ("time", JStr "1:00 PM"); ("score", JNum 4) ];
           JObj [ ("day", JStr "Sunday"); ("time", JStr "12:00 AM"); ("score", JNum 3) ] ])).
Proof.
  intros slots env. split; [apply upstream_ok_slots|].
  destruct (weekday_lookup_total env a_config sample_args [] slots (upstream_ok_slots _ _ _ _ _))
    as (_ & _ & _ & req & result & Hcall & _ & _ & Hdoc).
  rewrite Hcall. simpl snd. rewrite Hdoc. reflexivity.
Defined.

(** ** Errors *)

(** C7: a tool name that is none of the five of the catalog gets an
    error-flagged result whose text is the JSON of
    [{error: "Unknown tool: <name>"}], and no client method runs: no request
    is sent. *)
Theorem unknown_tool_rejected env config name typedArgs tr :
  ~ In name (map Tool.name TOOLS) ->
  List.length TOOLS = 5%nat
  /\ callTool env config name typedArgs tr
     = (tr, error_result [ ("error", JStr ("Unknown tool: " ++ name)) ])
  /\ (forall c, In c (CallToolResult.content (snd (callTool env config name typedArgs tr))) ->
        exists doc, TextContent.text c = Some doc
                    /\ member "error" doc = Some (JStr ("Unknown tool: " ++ name))).
Proof.
  intros Hname. simpl in Hname.
  assert (Hcall : callTool env config name typedArgs tr
                  = (tr, error_result [ ("error", JStr ("Unknown tool: " ++ name)) ])).
  { unfold callTool, try_catch, dispatch.
    repeat match goal with
           | |- context [(name =? ?lit)%string] =>
               destruct (String.eqb_spec name lit) as [Heq|_];
               [exfalso; apply Hname; rewrite Heq; simpl; tauto|]
           end.
    reflexivity. }
  split; [reflexivity|]. split; [exact Hcall|].
  rewrite Hcall. simpl. intros c [<-|[]]. eexists. split; reflexivity.
Qed.

Lemma unknown_tool_rejected_witness :
  ~ In "metricool_delete_post" (map Tool.name TOOLS)
  /\ callTool (upstream_status 200 "") a_config "metricool_delete_post" sample_args []
     = ([], error_result [ ("error", JStr "Unknown tool: metricool_delete_post") ]).
Proof.
  assert (H : ~ In "metricool_delete_post" (map Tool.name TOOLS)).
  { simpl. intros H. repeat (destruct H as [H|H]; [discriminate H|]). exact H. }
  split; [exact H|].
  exact (proj1 (proj2 (unknown_tool_rejected (upstream_status 200 "") a_config
                         "metricool_delete_post" sample_args [] H))).
Defined.

Section Refused.
Variable env : Env.
Variable config : MetricoolConfig.t.
Variables (st : number) (body : string).
Hypothesis Hrefuses : refuses env st body.
Hypothesis Hstatus : ~ (200 <= st <= 299).

#[local] Abbreviation message :=
  ("Metricool API error (" ++ Number_toString st ++ "): " ++ body).

Ltac fail_request :=
  unfold callTool, try_catch, dispatch; simpl;
  unfold bind,
    MetricoolClient.getBrands, MetricoolClient.schedulePost,
    MetricoolClient.getScheduledPosts, MetricoolClient.getAnalytics,
    MetricoolClient.getBestTime, MetricoolClient.deleteScheduledPost, bind;
  match goal with
  | |- context [MetricoolClient.request env config ?s ?e ?o ?tr] =>
      destruct (request_refused env config st body s e o tr Hrefuses Hstatus)
        as (req & Hreq);
      exists req; rewrite Hreq
  end;
  reflexivity.

Lemma getBrands_refused tr :
  exists req, MetricoolClient.getBrands env config tr
              = ((tr ++ [req])%list, inl (Error message)).
Proof. fail_request. Qed.

Lemma schedulePost_refused params tr :
  exists req, MetricoolClient.schedulePost env config params tr
              = ((tr ++ [req])%list, inl (Error message)).
Proof. fail_request. Qed.

Lemma getScheduledPosts_refused brandId tr :
  exists req, MetricoolClient.getScheduledPosts env config brandId tr
              = ((tr ++ [req])%list, inl (Error message)).
Proof. fail_request. Qed.

Lemma getAnalytics_refused params tr :
  exists req, MetricoolClient.getAnalytics env config params tr
              = ((tr ++ [req])%list, inl (Error message)).
Proof. fail_request. Qed.

Lemma getBestTime_refused brandId tr :
  exists req, MetricoolClient.getBestTime env config brandId tr
              = ((tr ++ [req])%list, inl (Error message)).
Proof. fail_request. Qed.

Lemma deleteScheduledPost_refused postId tr :
  exists req, MetricoolClient.deleteScheduledPost env config postId tr
              = ((tr ++ [req])%list, inl (Error message)).
Proof. fail_request. Qed.

Lemma callTool_refused name typedArgs tr :
  In name (map Tool.name TOOLS) ->
  exists req,
    callTool env config name typedArgs tr
    = ((tr ++ [req])%list,
       error_result [ ("success", JBool false); ("error", JStr message) ]).
Proof.
  simpl. intros [<-|[<-|[<-|[<-|[<-|[]]]]]]; fail_request.
Qed.
End Refused.

Lemma append_assoc (a b c : string) : (a ++ b) ++ c = a ++ b ++ c.
Proof. induction a as [|ch a IH]; simpl; [reflexivity|now rewrite IH]. Qed.

Lemma append_empty_r (a : string) : a ++ "" = a.
Proof. induction a as [|ch a IH]; simpl; [reflexivity|now rewrite IH]. Qed.

Lemma contains_intro pre sub post : contains sub (pre ++ sub ++ post).
Proof. now exists pre, post. Qed.

Lemma contains_suffix pre sub : contains sub (pre ++ sub).
Proof. exists pre, "". now rewrite append_empty_r. Qed.

(** C6: when the upstream answers with a status outside 200-299, every
    client operation throws an [Error] whose message holds the status code
    and the text of the response body, and the handler catches it: each tool
    of the catalog returns the failure payload
    [{success: false, error: <message>}], flagged as an error. *)
Theorem upstream_failure_reported env config st body typedArgs tr :
  refuses env st body ->
  ~ (200 <= st <= 299) ->
  exists message,
    message = "Metricool API error (" ++ Number_toString st ++ "): " ++ body
    /\ contains (Number_toString st) message
    /\ contains body message
    /\ (exists req, MetricoolClient.getBrands env config tr
                    = ((tr ++ [req])%list, inl (Error message)))
    /\ (forall params, exists req,
          MetricoolClient.schedulePost env config params tr
          = ((tr ++ [req])%list, inl (Error message)))
    /\ (forall brandId, exists req,
          MetricoolClient.getScheduledPosts env config brandId tr
          = ((tr ++ [req])%list, inl (Error message)))
    /\ (forall params, exists req,
          MetricoolClient.getAnalytics env config params tr
          = ((tr ++ [req])%list, inl (Error message)))
    /\ (forall brandId, exists req,
          MetricoolClient.getBestTime env config brandId tr
          = ((tr ++ [req])%list, inl (Error message)))
    /\ (forall postId, exists req,
          MetricoolClient.deleteScheduledPost env config postId tr
          = ((tr ++ [req])%list, inl (Error message)))
    /\ (forall name, In name (map Tool.name TOOLS) ->
        exists req,
          callTool env config name typedArgs tr
          = ((tr ++ [req])%list,
             error_result [ ("success", JBool false); ("error", JStr message) ])).
Proof.
  intros Hr Hst.
  exists ("Metricool API error (" ++ Number_toString st ++ "): " ++ body).
  split; [reflexivity|].
  split.
  { apply (contains_intro "Metricool API error (" (Number_toString st) ("): " ++ body)). }
  split.
  { rewrite <- (append_assoc (Number_toString st)), <- append_assoc.
    apply contains_suffix. }
  split; [now apply getBrands_refused|].
  split; [intros; now apply schedulePost_refused|].
  split; [intros; now apply getScheduledPosts_refused|].
  split; [intros; now apply getAnalytics_refused|].
  split; [intros; now apply getBestTime_refused|].
  split; [intros; now apply deleteScheduledPost_refused|].
  intros name Hin. now apply callTool_refused.
Qed.

Lemma upstream_status_refuses st body : refuses (upstream_status st body) st body.
Proof. intros s req. eexists. reflexivity. Qed.

Lemma upstream_failure_reported_witness :
  refuses (upstream_status 403 "forbidden") 403 "forbidden"
  /\ ~ (200 <= 403 <= 299)
  /\ exists req,
       callTool (upstream_status 403 "forbidden") a_config "metricool_get_analytics" sample_args []
       = ([req], error_result [ ("success", JBool false);
                                ("error", JStr "Metricool API error (403): forbidden") ]).
Proof.
  assert (Hst : ~ (200 <= 403 <= 299)) by lia.
  split; [apply upstream_status_refuses|]. split; [exact Hst|].
  destruct (upstream_failure_reported (upstream_status 403 "forbidden") a_config
              403 "forbidden" sample_args [] (upstream_status_refuses _ _) Hst)
    as (message & Hm & _ & _ & _ & _ & _ & _ & _ & _ & Hcall).
  destruct (Hcall "metricool_get_analytics") as (req & Hreq).
  - simpl. tauto.
  - exists req. rewrite Hreq, Hm. reflexivity.
Defined.

(** ** The body of a schedule-post request *)

Lemma request_trace env config s endpoint options tr :
  exists req,
    fst (MetricoolClient.request env config s endpoint options tr) = (tr ++ [req])%list
    /\ Request.url req = MetricoolClient.baseUrl ++ endpoint
    /\ RequestInit.method (Request.init req) = RequestInit.method options
    /\ RequestInit.body (Request.init req) = RequestInit.body options.
Proof.
  unfold MetricoolClient.request, bind, MetricoolClient.do_fetch.
  match goal with
  | |- context [fetch env s ?r] =>
      exists r; split; [|repeat split]; destruct (fetch env s r) as [e|resp]
  end; [reflexivity|].
  destruct (negb (Response.ok resp)); [reflexivity|].
  destruct (Response.json resp); reflexivity.
Qed.

Lemma schedulePost_trace env config params tr :
  exists req,
    fst (MetricoolClient.schedulePost env config params tr) = (tr ++ [req])%list
    /\ RequestInit.method (Request.init req) = Some "POST"
    /\ RequestInit.body (Request.init req)
       = JSON_stringify (MetricoolClient.schedulePost_body params).
Proof.
  unfold MetricoolClient.schedulePost.
  match goal with
  | |- context [MetricoolClient.request env config ?s ?e ?o] =>
      destruct (request_trace env config s e o tr) as (req & Htr & _ & Hm & Hb)
  end.
  exists req. split; [|split; assumption].
  unfold bind. rewrite <- Htr.
  match goal with
  | |- context [MetricoolClient.request env config ?s ?e ?o tr] =>
      destruct (MetricoolClient.request env config s e o tr) as [tr' [e'|v]]
  end; reflexivity.
Qed.

(** C3: the body of every schedule-post request holds the text, the
    [publicationDate] object [{dateTime, timezone}], the [providers] list
    with the single entry [{network}], and [autoPublish] set to true; it
    holds [linkedinData = {previewIncluded: true, type: "POST"}] when the
    resolved network is "linkedin" and no [linkedinData] member otherwise;
    when an image URL is supplied it also holds the one-element [media]
    list, and no [media] member otherwise. *)
Theorem schedule_post_body_shape env config params tr :
  let network := or_else (SchedulePostParams.network params) "linkedin" in
  exists req doc,
    fst (MetricoolClient.schedulePost env config params tr) = (tr ++ [req])%list
    /\ RequestInit.method (Request.init req) = Some "POST"
    /\ RequestInit.body (Request.init req) = Some doc
    /\ member "text" doc = Some (JStr (SchedulePostParams.text params))
    /\ member "publicationDate" doc
       = Some (JObj [ ("dateTime", JStr (SchedulePostParams.dateTime params));
                      ("timezone", JStr (or_else (SchedulePostParams.timezone params)
                                                 "America/Costa_Rica")) ])
    /\ member "providers" doc = Some (JArr [ JObj [ ("network", JStr network) ] ])
    /\ member "autoPublish" doc = Some (JBool true)
    /\ member "linkedinData" doc
       = (if (network =? "linkedin")%string
          then Some (JObj [ ("previewIncluded", JBool true); ("type", JStr "POST") ])
          else None)
    /\ member "media" doc
       = match SchedulePostParams.imageUrl params with
         | Some u => if (u =? "")%string then None else Some (JArr [ JStr u ])
         | None => None
         end.
Proof.
  intros network.
  destruct (schedulePost_trace env config params tr) as (req & Htr & Hm & Hb).
  exists req. rewrite Hb, Htr, Hm.
  unfold MetricoolClient.schedulePost_body. fold network.
  destruct (SchedulePostParams.imageUrl params) as [u|].
  - unfold toBoolean, ToBoolean_string.
    destruct (String.eqb_spec u ""); destruct (network =? "linkedin")%string;
      simpl; eexists; repeat split.
  - destruct (network =? "linkedin")%string; simpl; eexists; repeat split.
Qed.

(** ** The store: what the top-five computations touch *)

Lemma Array_sort_map {A B} (f : A -> B) (cmp : B -> B -> Z) (l : list A) :
  map f (Array_sort (fun x y => cmp (f x) (f y)) l) = Array_sort cmp (map f l).
Proof.
  induction l as [|x r IH]; simpl; [reflexivity|].
  rewrite <- IH. clear IH.
  induction (Array_sort (fun x y => cmp (f x) (f y)) r) as [|y t IHt]; simpl;
    [reflexivity|].
  destruct (cmp (f x) (f y) <=? 0); simpl; [reflexivity|now rewrite IHt].
Qed.

Section StoreFacts.
Context {E : Type}.
Implicit Types (h ext : Store.heap E) (c : Store.cell E) (r a : Store.ref).

Lemma nth_error_last h c ext : nth_error (h ++ c :: ext)%list (List.length h) = Some c.
Proof. rewrite nth_error_app2 by lia. now rewrite Nat.sub_diag. Qed.

Lemma set_cell_last h c c' ext :
  Store.set_cell (List.length h) c' (h ++ c :: ext)%list = (h ++ c' :: ext)%list.
Proof. induction h as [|x t IH]; simpl; [reflexivity|now rewrite IH]. Qed.

Lemma preserves_app h ext : Store.preserves h (h ++ ext)%list.
Proof. intros r Hr. now apply nth_error_app1. Qed.

Lemma entity_at_app h ext r e :
  Store.entity_at h r = Some e -> Store.entity_at (h ++ ext)%list r = Some e.
Proof.
  unfold Store.entity_at. intros He.
  destruct (nth_error h r) as [c|] eqn:Hn; [|discriminate].
  rewrite nth_error_app1; [now rewrite Hn|].
  apply nth_error_Some. congruence.
Qed.

Lemma arr_at_app h ext a rs :
  Store.arr_at h a = Some rs -> Store.arr_at (h ++ ext)%list a = Some rs.
Proof.
  unfold Store.arr_at. intros He.
  destruct (nth_error h a) as [c|] eqn:Hn; [|discriminate].
  rewrite nth_error_app1; [now rewrite Hn|].
  apply nth_error_Some. congruence.
Qed.

Lemma all_at_pairs h rs es :
  Store.all_at (Store.entity_at h) rs = Some es ->
  map fst (combine rs es) = rs /\ map snd (combine rs es) = es
  /\ Forall (Store.points_to h) (combine rs es).
Proof.
  revert es. induction rs as [|r t IH]; simpl; intros es Hes.
  - injection Hes as <-. repeat split. constructor.
  - destruct (Store.entity_at h r) as [e|] eqn:He; [|discriminate].
    destruct (Store.all_at (Store.entity_at h) t) as [es'|] eqn:Ht; [|discriminate].
    injection Hes as <-. destruct (IH es' eq_refl) as (H1 & H2 & H3).
    simpl. rewrite H1, H2. repeat split. constructor; assumption.
Qed.

Lemma pairs_all_at h (l : list (Store.ref * E)) :
  Forall (Store.points_to h) l ->
  Store.all_at (Store.entity_at h) (map fst l) = Some (map snd l).
Proof.
  induction 1 as [|[r e] t Hre _ IH]; simpl; [reflexivity|].
  unfold Store.points_to in Hre. simpl in Hre. now rewrite Hre, IH.
Qed.

Lemma points_to_app h ext l :
  Forall (Store.points_to h) l -> Forall (Store.points_to (h ++ ext)%list) l.
Proof.
  intros Hl. eapply Forall_impl; [|exact Hl].
  intros re Hre. now apply entity_at_app.
Qed.

Lemma Forall_firstn {A} (P : A -> Prop) n (l : list A) :
  Forall P l -> Forall P (firstn n l).
Proof.
  intros Hl. revert n. induction Hl as [|x t Hx _ IH]; intros [|n]; simpl;
    constructor; auto.
Qed.

Lemma alloc_views_spec (f : E -> value) es h :
  Store.alloc_views f es h
  = Some ((h ++ map (fun e => Store.View (f e)) es)%list,
          seq (List.length h) (List.length es)).
Proof.
  revert h. induction es as [|e t IH]; intros h; simpl.
  - unfold Store.hret. now rewrite app_nil_r.
  - unfold Store.hbind, Store.alloc, Store.hret. rewrite IH.
    rewrite <- app_assoc, length_app. simpl.
    now rewrite Nat.add_1_r.
Qed.

Lemma all_at_views h (f : E -> value) es ext :
  Store.all_at (Store.view_at (h ++ map (fun e => Store.View (f e)) es ++ ext)%list)
               (seq (List.length h) (List.length es))
  = Some (map f es).
Proof.
  revert h. induction es as [|e t IH]; intros h; simpl; [reflexivity|].
  unfold Store.view_at at 1. rewrite nth_error_last.
  specialize (IH (h ++ [Store.View (f e)])%list).
  rewrite <- app_assoc, length_app in IH. simpl in IH.
  rewrite Nat.add_1_r in IH. now rewrite IH.
Qed.

Lemma spread_spec h a rs :
  Store.arr_at h a = Some rs ->
  Store.spread a h = Some ((h ++ [Store.Arr rs])%list, List.length h).
Proof. intros Ha. unfold Store.spread. now rewrite Ha. Qed.

Lemma sort_in_place_spec cmp h rs es :
  Store.all_at (Store.entity_at h) rs = Some es ->
  Store.sort_in_place cmp (List.length h) (h ++ [Store.Arr rs])%list
  = Some ((h ++ [Store.Arr (map fst (Array_sort (fun x y => cmp (snd x) (snd y))
                                                (combine rs es)))])%list,
          List.length h).
Proof.
  intros Hes. unfold Store.sort_in_place, Store.arr_at. rewrite nth_error_last.
  destruct (all_at_pairs h rs es Hes) as (Hfst & Hsnd & Hpairs).
  pose proof (pairs_all_at _ _ (points_to_app h [Store.Arr rs] _ Hpairs)) as Hall.
  rewrite Hfst, Hsnd in Hall. rewrite Hall.
  now rewrite set_cell_last.
Qed.

Lemma slice_spec n h a rs :
  Store.arr_at h a = Some rs ->
  Store.slice n a h = Some ((h ++ [Store.Arr (slice0 n rs)])%list, List.length h).
Proof. intros Ha. unfold Store.slice. now rewrite Ha. Qed.

Lemma map_view_spec (f : E -> value) h a es :
  Store.elements h a = Some es ->
  Store.map_view f a h
  = Some ((h ++ map (fun e => Store.View (f e)) es
             ++ [Store.Arr (seq (List.length h) (List.length es))])%list,
          (List.length h + List.length es)%nat).
Proof.
  intros Hel. unfold Store.map_view. rewrite Hel.
  unfold Store.hbind. rewrite alloc_views_spec. unfold Store.alloc.
  now rewrite <- app_assoc, length_app, length_map.
Qed.

Lemma views_of_map_view (f : E -> value) h es :
  Store.views (h ++ map (fun e => Store.View (f e)) es
                 ++ [Store.Arr (seq (List.length h) (List.length es))])%list
              (List.length h + List.length es)%nat
  = Some (map f es).
Proof.
  unfold Store.views, Store.arr_at.
  rewrite app_assoc.
  replace (List.length h + List.length es)%nat
    with (List.length (h ++ map (fun e => Store.View (f e)) es)%list)
    by now rewrite length_app, length_map.
  rewrite nth_error_last. rewrite <- app_assoc. apply all_at_views.
Qed.

Lemma filter_spec keep h a es :
  Store.elements h a = Some es ->
  exists rs,
    Store.filter keep a h = Some ((h ++ [Store.Arr rs])%list, List.length h)
    /\ Store.elements (h ++ [Store.Arr rs])%list (List.length h)
       = Some (List.filter keep es).
Proof.
  unfold Store.elements. intros Hel.
  destruct (Store.arr_at h a) as [rs|] eqn:Harr; [|discriminate].
  destruct (all_at_pairs h rs es Hel) as (Hfst & Hsnd & Hpairs).
  exists (map fst (List.filter (fun re => keep (snd re)) (combine rs es))).
  split.
  - unfold Store.filter. now rewrite Harr, Hel.
  - unfold Store.arr_at. rewrite nth_error_last.
    rewrite pairs_all_at.
    + now rewrite <- filter_map_swap, Hsnd.
    + apply points_to_app. rewrite Forall_forall in *.
      intros re Hre. apply Hpairs. now apply filter_In in Hre.
Qed.

(** What [[...a].sort(cmp).slice(0, n).map(f)] does to the store: it only
    adds cells, and the array it returns lists the views of the first [n]
    entities of [a] in sorted order. *)
Lemma top_views_spec cmp n (f : E -> value) a h es :
  Store.elements h a = Some es ->
  exists ext out,
    Store.top_views cmp n f a h = Some ((h ++ ext)%list, out)
    /\ Store.views (h ++ ext)%list out = Some (map f (slice0 n (Array_sort cmp es))).
Proof.
  unfold Store.elements. intros Hel.
  destruct (Store.arr_at h a) as [rs|] eqn:Harr; [|discriminate].
  destruct (all_at_pairs h rs es Hel) as (Hfst & Hsnd & Hpairs).
  set (sp := Array_sort (fun x y => cmp (snd x) (snd y)) (combine rs es)).
  assert (Hsp : Forall (Store.points_to h) sp).
  { rewrite Forall_forall in *. intros re Hre. apply Hpairs.
    eapply Permutation_in; [apply Array_sort_perm|exact Hre]. }
  set (h2 := (h ++ [Store.Arr (map fst sp)])%list).
  set (h3 := (h2 ++ [Store.Arr (slice0 n (map fst sp))])%list).
  set (top := slice0 n (Array_sort cmp es)).
  set (V := map (fun e => @Store.View E (f e)) top).
  set (C := Store.Arr (E := E) (seq (List.length h3) (List.length top))).
  assert (Hel3 : Store.elements h3 (List.length h2) = Some top).
  { unfold Store.elements, Store.arr_at, h3. rewrite nth_error_last.
    unfold slice0. rewrite firstn_map.
    rewrite (pairs_all_at _ (firstn n sp)).
    - f_equal. rewrite <- firstn_map. unfold sp.
      now rewrite Array_sort_map, Hsnd.
    - apply Forall_firstn. unfold h2. rewrite <- app_assoc.
      now apply points_to_app. }
  assert (Hrun : Store.top_views cmp n f a h
                 = Some ((h3 ++ V ++ [C])%list, (List.length h3 + List.length top)%nat)).
  { unfold Store.top_views, Store.hbind.
    rewrite (spread_spec _ _ _ Harr), (sort_in_place_spec cmp _ _ _ Hel).
    fold sp. fold h2.
    rewrite (slice_spec n h2 (List.length h) (map fst sp)).
    - fold h3. now apply (map_view_spec f h3 _ top).
    - unfold Store.arr_at, h2. now rewrite nth_error_last. }
  exists ([Store.Arr (map fst sp); Store.Arr (slice0 n (map fst sp))] ++ V ++ [C])%list.
  exists (List.length h3 + List.length top)%nat.
  assert (Hext : (h ++ [Store.Arr (map fst sp); Store.Arr (slice0 n (map fst sp))]
                    ++ V ++ [C])%list = (h3 ++ V ++ [C])%list).
  { unfold h3, h2. now rewrite <- !app_assoc. }
  rewrite Hext. split; [exact Hrun|apply views_of_map_view].
Qed.
End StoreFacts.

Lemma elements_app {E} (h ext : Store.heap E) a es :
  Store.elements h a = Some es -> Store.elements (h ++ ext)%list a = Some es.
Proof.
  unfold Store.elements. intros Hel.
  destruct (Store.arr_at h a) as [rs|] eqn:Harr; [|discriminate].
  rewrite (arr_at_app h ext a rs Harr).
  destruct (all_at_pairs h rs es Hel) as (Hfst & Hsnd & Hpairs).
  pose proof (pairs_all_at _ _ (points_to_app h ext _ Hpairs)) as Hall.
  now rewrite Hfst, Hsnd in Hall.
Qed.

(** Sorting the fetched array itself, without the copy, would reorder it. *)
Example sort_without_copy_reorders :
  let h := [ Store.Entity (slot 1 9 5); Store.Entity (slot 2 10 7); Store.Arr [0; 1]%nat ] in
  Store.elements h 2%nat = Some [ slot 1 9 5; slot 2 10 7 ]
  /\ exists h',
       Store.sort_in_place byScore 2%nat h = Some (h', 2%nat)
       /\ Store.elements h' 2%nat = Some [ slot 2 10 7; slot 1 9 5 ].
Proof. split; [reflexivity|]. eexists. split; reflexivity. Qed.

(** A store that extends [h] keeps every cell of [h], and the array [a]
    still lists the entities [es]. *)
Lemma frame_of_extension {E} (h h' : Store.heap E) a es :
  Store.elements h a = Some es ->
  (exists ext, h' = (h ++ ext)%list) ->
  Store.preserves h h'
  /\ Store.arr_at h' a = Store.arr_at h a
  /\ Store.elements h' a = Some es.
Proof.
  intros Hel (ext & ->). split; [apply preserves_app|]. split; [|now apply elements_app].
  unfold Store.elements in Hel.
  destruct (Store.arr_at h a) as [rs|] eqn:Harr; [|discriminate].
  now apply arr_at_app.
Qed.

(** C9: the handler does not change what it fetched.  After the top-five
    views of get-best-time and of get-analytics are computed, every cell
    that was in the store before is as it was, so the arrays returned by
    [getBestTime] and [getAnalytics] list the same objects in the same
    order: the sort works on a copy, and the views are new objects.  The
    same holds of the filtering and mapping of get-scheduled-posts and of
    the mapping of get-brands. *)
Theorem fetched_arrays_unchanged
    (hs : Store.heap BestTimeSlot.t) (slots : Store.ref) (ss : list BestTimeSlot.t)
    (hp : Store.heap LinkedInPost.t) (posts : Store.ref) (ps : list LinkedInPost.t)
    (hq : Store.heap ScheduledPost.t) (scheduled : Store.ref) (qs : list ScheduledPost.t)
    (hb : Store.heap Brand.t) (brands : Store.ref) (bs : list Brand.t) :
  Store.elements hs slots = Some ss ->
  Store.elements hp posts = Some ps ->
  Store.elements hq scheduled = Some qs ->
  Store.elements hb brands = Some bs ->
  (exists hs' out,
      Store.bestTime_views slots hs = Some (hs', out)
      /\ Store.preserves hs hs'
      /\ Store.arr_at hs' slots = Store.arr_at hs slots
      /\ Store.elements hs' slots = Some ss
      /\ Store.views hs' out = Some (map topSlot_view (topSlots ss)))
  /\
  (exists hp' out,
      Store.analytics_views posts hp = Some (hp', (totals ps, out))
      /\ Store.preserves hp hp'
      /\ Store.arr_at hp' posts = Store.arr_at hp posts
      /\ Store.elements hp' posts = Some ps
      /\ Store.views hp' out = Some (map topPost_view (topPosts ps)))
  /\
  (exists hq' out,
      Store.pending_views scheduled hq = Some (hq', out)
      /\ Store.preserves hq hq'
      /\ Store.arr_at hq' scheduled = Store.arr_at hq scheduled
      /\ Store.elements hq' scheduled = Some qs
      /\ Store.views hq' out = Some (map pendingPost_view (pendingPosts qs)))
  /\
  (exists hb' out,
      Store.brands_views brands hb = Some (hb', out)
      /\ Store.preserves hb hb'
      /\ Store.arr_at hb' brands = Store.arr_at hb brands
      /\ Store.elements hb' brands = Some bs
      /\ Store.views hb' out = Some (map formattedBrand bs)).
Proof.
  intros Hs Hp Hq Hb. split; [|split; [|split]].
  - destruct (top_views_spec byScore 5 topSlot_view slots hs ss Hs)
      as (ext & out & Hrun & Hviews).
    exists (hs ++ ext)%list, out.
    destruct (frame_of_extension hs _ slots ss Hs (ex_intro _ ext eq_refl))
      as (H1 & H2 & H3).
    repeat split; assumption.
  - destruct (top_views_spec byEngagement 5 topPost_view posts hp ps Hp)
      as (ext & out & Hrun & Hviews).
    exists (hp ++ ext)%list, out.
    destruct (frame_of_extension hp _ posts ps Hp (ex_intro _ ext eq_refl))
      as (H1 & H2 & H3).
    split; [|repeat split; assumption].
    unfold Store.analytics_views, Store.hbind, Store.reduce. now rewrite Hp, Hrun.
  - destruct (filter_spec isPending hq scheduled qs Hq) as (rs & Hfil & Hel).
    pose proof (map_view_spec pendingPost_view _ _ _ Hel) as Hmap.
    eexists. eexists. split.
    { unfold Store.pending_views, Store.hbind. rewrite Hfil. exact Hmap. }
    match goal with
    | |- Store.preserves _ ?h' /\ _ =>
        destruct (frame_of_extension hq h' scheduled qs Hq) as (H1 & H2 & H3)
    end.
    { eexists. symmetry. apply app_assoc. }
    split; [exact H1|]. split; [exact H2|]. split; [exact H3|].
    apply views_of_map_view.
  - pose proof (map_view_spec formattedBrand _ _ _ Hb) as Hmap.
    eexists. eexists. split; [exact Hmap|].
    match goal with
    | |- Store.preserves _ ?h' /\ _ =>
        destruct (frame_of_extension hb h' brands bs Hb) as (H1 & H2 & H3)
    end.
    { eexists. reflexivity. }
    split; [exact H1|]. split; [exact H2|]. split; [exact H3|].
    apply views_of_map_view.
Qed.

Lemma fetched_arrays_unchanged_witness :
  let hs := [ Store.Entity (slot 1 9 5); Store.Entity (slot 2 10 7);
              Store.Arr [0; 1]%nat ] in
  let hp := [ Store.Arr [1; 2]%nat;
              Store.Entity (with_counts None (Some 2) None None None);
              Store.Entity (with_counts None None (Some 4) None None) ] in
  let hq := [ Store.Entity (post_with 1 [ provider "linkedin" "PENDING" ]);
              Store.Arr [0]%nat ] in
  let hb := [ Store.Entity (brand_with None None); Store.Arr [0]%nat ] in
  Store.elements hs 2%nat = Some [ slot 1 9 5; slot 2 10 7 ]
  /\ Store.elements hp 0%nat
     = Some [ with_counts None (Some 2) None None None;
              with_counts None None (Some 4) None None ]
  /\ Store.elements hq 1%nat = Some [ post_with 1 [ provider "linkedin" "PENDING" ] ]
  /\ Store.elements hb 1%nat = Some [ brand_with None None ]
  /\ exists hs' out,
       Store.bestTime_views 2%nat hs = Some (hs', out)
       /\ Store.arr_at hs' 2%nat = Some [0; 1]%nat
       /\ Store.views hs' out
          = Some [ topSlot_view (slot 2 10 7); topSlot_view (slot 1 9 5) ].
Proof.
  intros hs hp hq hb.
  split; [reflexivity|]. split; [reflexivity|].
  split; [reflexivity|]. split; [reflexivity|].
  destruct (fetched_arrays_unchanged hs 2%nat _ hp 0%nat _ hq 1%nat _ hb 1%nat _
              eq_refl eq_refl eq_refl eq_refl)
    as [(hs' & out & Hrun & _ & Harr & _ & Hviews) _].
  exists hs', out. split; [exact Hrun|]. split; [exact Harr|exact Hviews].
Defined.


(* ================================================================== *)
(** * Further properties of the client and of the dispatcher *)
(* ================================================================== *)

(** ** Text truncation *)

Lemma length_append (a b : string) :
  String.length (a ++ b) = (String.length a + String.length b)%nat.
Proof. induction a as [|c a IH]; simpl; [reflexivity|now rewrite IH]. Qed.

Lemma length_substring_0 n s :
  String.length (substring 0 n s) = Nat.min n (String.length s).
Proof.
  revert s. induction n as [|n IH]; intros [|c s]; simpl; try reflexivity.
  now rewrite IH.
Qed.

Lemma substring_0_all n s : (String.length s <= n)%nat -> substring 0 n s = s.
Proof.
  revert s. induction n as [|n IH]; intros [|c s]; simpl; intros Hl;
    try reflexivity; try lia.
  rewrite IH; [reflexivity|lia].
Qed.

Lemma substring_0_prefix n s : starts_with (substring 0 n s) s.
Proof.
  revert s. induction n as [|n IH]; intros [|c s]; simpl.
  - now exists "".
  - now exists (String c s).
  - now exists "".
  - destruct (IH s) as (rest & Hrest). exists rest. simpl. now rewrite <- Hrest.
Qed.

Lemma truncate_short n s : (String.length s <= n)%nat -> truncate n s = s.
Proof.
  intros Hl. unfold truncate. rewrite substring_0_all by assumption.
  destruct (Nat.ltb_spec n (String.length s)); [lia|apply append_empty_r].
Qed.

Lemma truncate_long n s :
  (n < String.length s)%nat ->
  truncate n s = substring 0 n s ++ "..."
  /\ String.length (truncate n s) = (n + 3)%nat.
Proof.
  intros Hl. unfold truncate.
  destruct (Nat.ltb_spec n (String.length s)); [|lia].
  split; [reflexivity|].
  rewrite length_append, length_substring_0. simpl. lia.
Qed.

Lemma units_append (a b : string) :
  list_ascii_of_string (a ++ b)
  = (list_ascii_of_string a ++ list_ascii_of_string b)%list.
Proof. induction a as [|c a IH]; simpl; [reflexivity|now rewrite IH]. Qed.

Lemma units_length s : List.length (list_ascii_of_string s) = String.length s.
Proof. induction s as [|c s IH]; simpl; [reflexivity|now rewrite IH]. Qed.

Lemma units_substring_0 n s :
  list_ascii_of_string (substring 0 n s) = firstn n (list_ascii_of_string s).
Proof.
  revert s. induction n as [|n IH]; intros [|c s]; simpl; try reflexivity.
  now rewrite IH.
Qed.

(** [truncate] is [truncate_units] on the units of its argument. *)
Lemma truncate_as_units n s :
  list_ascii_of_string (truncate n s)
  = truncate_units (list_ascii_of_string "...") n (list_ascii_of_string s).
Proof.
  unfold truncate, truncate_units.
  rewrite units_append, units_substring_0, units_length.
  now destruct (n <? String.length s)%nat.
Qed.

Lemma truncate_units_spec {U} (dots s : list U) n :
  List.length dots = 3%nat ->
  ((List.length s <= n)%nat -> truncate_units dots n s = s)
  /\ ((n < List.length s)%nat ->
      truncate_units dots n s = (firstn n s ++ dots)%list
      /\ List.length (truncate_units dots n s) = (n + 3)%nat).
Proof.
  intros Hdots. unfold truncate_units. split; intros Hl.
  - destruct (Nat.ltb_spec n (List.length s)); [lia|].
    rewrite app_nil_r. now apply firstn_all2.
  - destruct (Nat.ltb_spec n (List.length s)); [|lia].
    split; [reflexivity|].
    rewrite length_app, length_firstn, Hdots. lia.
Qed.

(** For a text of characters up to U+00FF, each one UTF-16 unit and one
    character of a [string]: the [text] of a listed scheduled post is the
    post's text when that has at most 100 characters; otherwise it is its
    first 100 characters followed by ["..."], 103 characters in all.  The
    [text] of a top post follows the same rule with 80 characters, on
    [text || content || ""].  The rule does not depend on the alphabet: on
    the code units of any string, the expression keeps a string of at most
    [n] units and otherwise gives its first [n] units followed by the three
    of ["..."]; [truncate] is that expression on the units of a [string]. *)
Theorem view_text_truncated (p : ScheduledPost.t) (q : LinkedInPost.t) :
  (exists t,
      member "text" (to_json (pendingPost_view p)) = Some (JStr t)
      /\ (String.length t <= 103)%nat
      /\ ((String.length (ScheduledPost.text p) <= 100)%nat -> t = ScheduledPost.text p)
      /\ ((100 < String.length (ScheduledPost.text p))%nat ->
          String.length t = 103%nat
          /\ exists head rest,
               t = head ++ "..." /\ String.length head = 100%nat
               /\ ScheduledPost.text p = head ++ rest))
  /\
  (exists t,
      let source := or_else (or_opt (LinkedInPost.text q) (LinkedInPost.content q)) "" in
      member "text" (to_json (topPost_view q)) = Some (JStr t)
      /\ (String.length t <= 83)%nat
      /\ ((String.length source <= 80)%nat -> t = source)
      /\ ((80 < String.length source)%nat ->
          String.length t = 83%nat /\ starts_with (substring 0 80 source) source
          /\ t = substring 0 80 source ++ "..."))
  /\
  (forall (U : Type) (dots s : list U) (n : nat),
      List.length dots = 3%nat ->
      ((List.length s <= n)%nat -> truncate_units dots n s = s)
      /\ ((n < List.length s)%nat ->
          truncate_units dots n s = (firstn n s ++ dots)%list
          /\ List.length (truncate_units dots n s) = (n + 3)%nat))
  /\
  (forall n s,
      list_ascii_of_string (truncate n s)
      = truncate_units (list_ascii_of_string "...") n (list_ascii_of_string s)).
Proof.
  split; [|split; [|split; [intros U dots s n; apply truncate_units_spec
                          |apply truncate_as_units]]].
  - exists (truncate 100 (ScheduledPost.text p)). split; [reflexivity|].
    destruct (Nat.le_gt_cases (String.length (ScheduledPost.text p)) 100) as [Hs|Hl].
    + split; [rewrite truncate_short by assumption; lia|].
      split; [intros _; now apply truncate_short|intros; lia].
    + destruct (truncate_long 100 _ Hl) as [Heq Hlen].
      split; [lia|]. split; [intros; lia|]. intros _. split; [exact Hlen|].
      destruct (substring_0_prefix 100 (ScheduledPost.text p)) as (rest & Hrest).
      exists (substring 0 100 (ScheduledPost.text p)), rest.
      split; [exact Heq|]. split; [|exact Hrest].
      rewrite length_substring_0. lia.
  - exists (truncate 80 (or_else (or_opt (LinkedInPost.text q) (LinkedInPost.content q)) "")).
    cbv zeta. split.
    { unfold to_json, topPost_view.
      destruct (or_opt (LinkedInPost.id q) (LinkedInPost.postId q));
        destruct (or_opt (LinkedInPost.publishedAt q) (LinkedInPost.date q)); reflexivity. }
    set (source := or_else (or_opt (LinkedInPost.text q) (LinkedInPost.content q)) "").
    destruct (Nat.le_gt_cases (String.length source) 80) as [Hs|Hl].
    + split; [rewrite truncate_short by assumption; lia|].
      split; [intros _; now apply truncate_short|intros; lia].
    + destruct (truncate_long 80 _ Hl) as [Heq Hlen].
      split; [lia|]. split; [intros; lia|]. intros _.
      split; [exact Hlen|]. split; [apply substring_0_prefix|exact Heq].
Qed.

Lemma view_text_truncated_witness :
  let long := post_with 1 [] in
  exists t,
    member "text"
      (to_json (pendingPost_view
         {| ScheduledPost.id := 1; ScheduledPost.uuid := "u";
            ScheduledPost.text := zeros 150;
            ScheduledPost.publicationDate := ScheduledPost.publicationDate long;
            ScheduledPost.providers := []; ScheduledPost.draft := false |}))
      = Some (JStr t)
    /\ String.length t = 103%nat.
Proof.
  intros long.
  destruct (view_text_truncated
              {| ScheduledPost.id := 1; ScheduledPost.uuid := "u";
                 ScheduledPost.text := zeros 150;
                 ScheduledPost.publicationDate := ScheduledPost.publicationDate long;
                 ScheduledPost.providers := []; ScheduledPost.draft := false |} post0)
    as [(t & Ht & _ & _ & Hlong) _].
  exists t. split; [exact Ht|].
  apply Hlong. vm_compute. lia.
Defined.

(** ** The twelve-hour clock *)

Lemma hour_cases h :
  0 <= h <= 23 ->
  In h [0; 1; 2; 3; 4; 5; 6; 7; 8; 9; 10; 11; 12; 13; 14; 15; 16; 17; 18; 19; 20; 21; 22; 23].
Proof.
  intros Hh. simpl.
  assert (h = 0 \/ h = 1 \/ h = 2 \/ h = 3 \/ h = 4 \/ h = 5 \/ h = 6 \/ h = 7
          \/ h = 8 \/ h = 9 \/ h = 10 \/ h = 11 \/ h = 12 \/ h = 13 \/ h = 14
          \/ h = 15 \/ h = 16 \/ h = 17 \/ h = 18 \/ h = 19 \/ h = 20 \/ h = 21
          \/ h = 22 \/ h = 23) as H by lia.
  repeat (destruct H as [H|H]; [subst; tauto|]). subst; tauto.
Qed.

(** For an hour of the day, 0 to 23, [formatHour] prints an hour between 1
    and 12 that agrees with it modulo 12, then [":00 "], then ["AM"] before
    noon and ["PM"] from noon on; two different hours of the day never print
    the same. *)
Theorem formatHour_twelve_hour_clock (h : number) :
  0 <= h <= 23 ->
  (exists d,
      1 <= d <= 12 /\ d mod 12 = h mod 12
      /\ formatHour h = Number_toString d ++ ":00 " ++ (if h <? 12 then "AM" else "PM"))
  /\ (forall h', 0 <= h' <= 23 -> formatHour h' = formatHour h -> h' = h).
Proof.
  intros Hh. split.
  - exists (if h =? 0 then 12 else if h >? 12 then h - 12 else h).
    apply hour_cases in Hh. simpl in Hh.
    repeat (destruct Hh as [<-|Hh]; [vm_compute; intuition congruence|]).
    contradiction.
  - intros h' Hh' Heq.
    apply hour_cases in Hh. apply hour_cases in Hh'. simpl in Hh, Hh'.
    repeat (destruct Hh as [<-|Hh];
            [repeat (destruct Hh' as [<-|Hh'];
                     [first [reflexivity | vm_compute in Heq; discriminate Heq]|]);
             contradiction|]).
    contradiction.
Qed.

Lemma formatHour_twelve_hour_clock_witness :
  0 <= 13 <= 23
  /\ exists d, 1 <= d <= 12
              /\ formatHour 13 = Number_toString d ++ ":00 " ++ "PM".
Proof.
  assert (H : 0 <= 13 <= 23) by lia.
  split; [exact H|].
  destruct (formatHour_twelve_hour_clock 13 H) as [(d & Hd & _ & Hf) _].
  exists d. split; [exact Hd|exact Hf].
Defined.

(** ** What the client sends *)

Lemma request_run env config s endpoint options tr :
  MetricoolClient.request env config s endpoint options tr
  = ((tr ++ [sent_request config endpoint options])%list,
     request_outcome (fetch env s (sent_request config endpoint options))).
Proof.
  unfold MetricoolClient.request, bind, MetricoolClient.do_fetch, request_outcome.
  change {| Request.url := MetricoolClient.baseUrl ++ endpoint;
            Request.init := _ |} with (sent_request config endpoint options).
  destruct (fetch env s (sent_request config endpoint options)) as [e|r]; [reflexivity|].
  destruct (Response.ok r); [|reflexivity].
  destruct (Response.json r); reflexivity.
Qed.

Lemma bind_ret_run {A B} (c : M A) (f : A -> B) tr :
  bind c (fun x => ret (f x)) tr
  = (fst (c tr), match snd (c tr) with inr v => inr (f v) | inl e => inl e end).
Proof. unfold bind, ret. destruct (c tr) as [tr' [e|v]]; reflexivity. Qed.

(** Whatever the upstream does, each of the six client methods calls
    [fetch] exactly once, on a URL under the base URL, with exactly the two
    headers [X-Mc-Auth], holding the configured token, and [Content-Type];
    [schedulePost] uses POST and is the only one with a body,
    [deleteScheduledPost] uses DELETE, the others leave the method to its
    default. *)
Theorem client_requests_authenticated env config tr :
  let sends (after : list Request.t) (m : option string) (with_body : bool) :=
    exists req,
      after = (tr ++ [req])%list
      /\ RequestInit.headers (Request.init req) = Some (auth_headers config)
      /\ RequestInit.method (Request.init req) = m
      /\ (if with_body then RequestInit.body (Request.init req) <> None
          else RequestInit.body (Request.init req) = None)
      /\ starts_with "https://app.metricool.com/api/" (Request.url req) in
  sends (fst (MetricoolClient.getBrands env config tr)) None false
  /\ (forall params,
        sends (fst (MetricoolClient.schedulePost env config params tr)) (Some "POST") true)
  /\ (forall brandId,
        sends (fst (MetricoolClient.getScheduledPosts env config brandId tr)) None false)
  /\ (forall params,
        sends (fst (MetricoolClient.getAnalytics env config params tr)) None false)
  /\ (forall brandId,
        sends (fst (MetricoolClient.getBestTime env config brandId tr)) None false)
  /\ (forall postId,
        sends (fst (MetricoolClient.deleteScheduledPost env config postId tr))
              (Some "DELETE") false).
Proof.
  cbv zeta.
  repeat split; intros;
    unfold MetricoolClient.getBrands, MetricoolClient.schedulePost,
      MetricoolClient.getScheduledPosts, MetricoolClient.getAnalytics,
      MetricoolClient.getBestTime, MetricoolClient.deleteScheduledPost;
    try rewrite bind_ret_run; rewrite request_run;
    (eexists; split; [reflexivity|]);
    (split; [reflexivity|]); (split; [reflexivity|]);
    (split; [|eexists; reflexivity]);
    try reflexivity.
  simpl. unfold MetricoolClient.schedulePost_body.
  destruct (SchedulePostParams.imageUrl params) as [u|];
    [destruct (toBoolean u)|]; discriminate.
Qed.

(** ** One tool call, at most one request *)

Lemma try_catch_run {A} (c : M A) (h : thrown -> A) tr :
  try_catch c h tr
  = (fst (c tr), match snd (c tr) with inr a => a | inl e => h e end).
Proof. unfold try_catch. destruct (c tr) as [tr' [e|a]]; reflexivity. Qed.

(** Splits on the tool name: one goal for each case of the [switch], and one
    for the default case with the five disequalities. *)
Ltac switch_on name :=
  unfold callTool, dispatch;
  destruct (String.eqb_spec name "metricool_get_brands") as [->|?];
  [|destruct (String.eqb_spec name "metricool_schedule_post") as [->|?];
    [|destruct (String.eqb_spec name "metricool_get_scheduled_posts") as [->|?];
      [|destruct (String.eqb_spec name "metricool_get_analytics") as [->|?];
        [|destruct (String.eqb_spec name "metricool_get_best_time") as [->|?]]]]].

(** Runs the one client call of a tool case down to the answer of [fetch]. *)
Ltac run_client :=
  rewrite try_catch_run, bind_ret_run;
  unfold MetricoolClient.getBrands, MetricoolClient.schedulePost,
    MetricoolClient.getScheduledPosts, MetricoolClient.getAnalytics,
    MetricoolClient.getBestTime;
  try rewrite bind_ret_run; rewrite request_run; cbn [fst snd].

Lemma not_in_catalog name :
  name <> "metricool_get_brands" -> name <> "metricool_schedule_post" ->
  name <> "metricool_get_scheduled_posts" -> name <> "metricool_get_analytics" ->
  name <> "metricool_get_best_time" -> in_catalog name = false.
Proof.
  intros H1 H2 H3 H4 H5. unfold in_catalog. simpl.
  apply String.eqb_neq in H1, H2, H3, H4, H5.
  now rewrite H1, H2, H3, H4, H5.
Qed.

(** Whatever the upstream does, a tool call makes at most one request: none
    for a name outside the catalog, and exactly one for get-brands, which
    reads no argument.  Every request it makes carries the auth headers. *)
Theorem callTool_at_most_one_request env config name typedArgs tr :
  exists reqs,
    fst (callTool env config name typedArgs tr) = (tr ++ reqs)%list
    /\ (List.length reqs <= 1)%nat
    /\ (in_catalog name = false -> reqs = [])
    /\ (name = "metricool_get_brands" -> List.length reqs = 1%nat)
    /\ Forall (fun req => RequestInit.headers (Request.init req)
                          = Some (auth_headers config)) reqs.
Proof.
  switch_on name;
    try (run_client; eexists; split; [reflexivity|];
         split; [apply Nat.le_refl|];
         split; [intros Hout; vm_compute in Hout; discriminate Hout|];
         split; [intros _; reflexivity|]; repeat constructor).
  exists []. rewrite try_catch_run. cbn [fst ret]. rewrite app_nil_r.
  split; [reflexivity|]. split; [apply Nat.le_0_l|].
  split; [reflexivity|]. split; [intros Hname; contradiction|constructor].
Qed.

(** ** Failures other than a refusal *)

Lemma request_fails_with env config e s endpoint options tr :
  fails_with env e ->
  MetricoolClient.request env config s endpoint options tr
  = ((tr ++ [sent_request config endpoint options])%list, inl e).
Proof.
  intros Hf. rewrite request_run. f_equal.
  destruct (Hf s (sent_request config endpoint options))
    as [->|(st & txt & Hst & ->)]; [reflexivity|].
  unfold request_outcome, Response.ok. cbn [Response.status Response.json].
  replace ((200 <=? st) && (st <=? 299))%bool with true; [reflexivity|].
  symmetry. apply andb_true_iff. split; apply Z.leb_le; lia.
Qed.

(** When [fetch] throws (a network failure), or a 2xx response has a body
    that [json()] cannot parse, every tool of the catalog returns the
    error-flagged [{success: false, error: m}], where [m] is the message of
    the thrown [Error], and ["Unknown error"] when what was thrown is not an
    [Error]. *)
Theorem thrown_errors_reported env config name typedArgs tr e :
  in_catalog name = true ->
  fails_with env e ->
  exists req,
    callTool env config name typedArgs tr
    = ((tr ++ [req])%list,
       error_result [ ("success", JBool false);
                      ("error", JStr (match e with
                                      | Error m => m
                                      | NonError => "Unknown error"
                                      end)) ]).
Proof.
  intros Hcat Hf.
  switch_on name;
    try (rewrite try_catch_run, bind_ret_run;
         unfold MetricoolClient.getBrands, MetricoolClient.schedulePost,
           MetricoolClient.getScheduledPosts, MetricoolClient.getAnalytics,
           MetricoolClient.getBestTime;
         try rewrite bind_ret_run;
         rewrite (request_fails_with env config e _ _ _ tr Hf);
         eexists; destruct e; reflexivity).
  rewrite not_in_catalog in Hcat by assumption. discriminate.
Qed.

Lemma thrown_errors_reported_witness :
  in_catalog "metricool_get_best_time" = true
  /\ fails_with (upstream_throws NonError) NonError
  /\ fails_with (upstream_unparsable 204 (Error "Unexpected end of JSON input"))
                (Error "Unexpected end of JSON input")
  /\ (exists req,
        callTool (upstream_throws NonError) a_config "metricool_get_best_time" sample_args []
        = ([req], error_result [ ("success", JBool false);
                                 ("error", JStr "Unknown error") ]))
  /\ (exists req,
        callTool (upstream_unparsable 204 (Error "Unexpected end of JSON input"))
                 a_config "metricool_get_brands" sample_args []
        = ([req], error_result [ ("success", JBool false);
                                 ("error", JStr "Unexpected end of JSON input") ])).
Proof.
  assert (H1 : fails_with (upstream_throws NonError) NonError)
    by (intros s req; left; reflexivity).
  assert (H2 : fails_with (upstream_unparsable 204 (Error "Unexpected end of JSON input"))
                          (Error "Unexpected end of JSON input")).
  { intros s req. right. exists 204, "". split; [lia|reflexivity]. }
  split; [reflexivity|]. split; [exact H1|]. split; [exact H2|]. split.
  - exact (thrown_errors_reported (upstream_throws NonError) a_config
             "metricool_get_best_time" sample_args [] NonError eq_refl H1).
  - exact (thrown_errors_reported _ a_config "metricool_get_brands" sample_args []
             (Error "Unexpected end of JSON input") eq_refl H2).
Defined.

(** ** The error flag and the [success] member *)

(** Whatever the upstream does, whatever the name and the arguments, the
    result has one text block holding a JSON object, and either it is not
    flagged, has [success: true] and no [error] member, or it is flagged as
    an error, does not have [success: true], and has an [error] member
    holding a string. *)
Theorem result_flag_agrees_with_payload env config name typedArgs tr :
  exists doc,
    document (snd (callTool env config name typedArgs tr)) = Some doc
    /\ ((CallToolResult.isError (snd (callTool env config name typedArgs tr)) = None
         /\ member "success" doc = Some (JBool true)
         /\ member "error" doc = None)
        \/
        (CallToolResult.isError (snd (callTool env config name typedArgs tr)) = Some true
         /\ member "success" doc <> Some (JBool true)
         /\ exists m, member "error" doc = Some (JStr m))).
Proof.
  switch_on name;
    try (run_client;
         match goal with
         | |- context [request_outcome ?a] => destruct (request_outcome a) as [e|v]
         end;
         [ eexists; split; [reflexivity|]; right;
           split; [reflexivity|]; split; [discriminate|]; eexists; reflexivity
         | eexists; split; [reflexivity|]; left; repeat split ]).
  rewrite try_catch_run. cbn [snd ret].
  eexists. split; [reflexivity|]. right.
  split; [reflexivity|]. split; [discriminate|]. eexists. reflexivity.
Qed.

(** ** Scheduling through the tool *)

Ltac tool_case :=
  unfold callTool, dispatch; cbn [String.eqb Ascii.eqb Bool.eqb].

(** The schedule-post tool sends at most one request, and every request it
    sends is a POST whose body names the single provider "linkedin", carries
    [linkedinData] and sets [autoPublish]: the tool passes no network.  The
    [timezone] of its publication date is the argument when that is given
    and not empty, and "America/Costa_Rica" otherwise. *)
Theorem schedule_tool_targets_linkedin env config typedArgs tr :
  exists reqs,
    fst (callTool env config "metricool_schedule_post" typedArgs tr) = (tr ++ reqs)%list
    /\ (List.length reqs <= 1)%nat
    /\ Forall (fun req =>
         RequestInit.method (Request.init req) = Some "POST"
         /\ exists doc publication,
              RequestInit.body (Request.init req) = Some doc
              /\ member "providers" doc
                 = Some (JArr [ JObj [ ("network", JStr "linkedin") ] ])
              /\ member "linkedinData" doc
                 = Some (JObj [ ("previewIncluded", JBool true); ("type", JStr "POST") ])
              /\ member "autoPublish" doc = Some (JBool true)
              /\ member "publicationDate" doc = Some publication
              /\ member "timezone" publication
                 = Some (JStr (match Args.timezone typedArgs with
                               | Some t =>
                                   if (t =? "")%string then "America/Costa_Rica" else t
                               | None => "America/Costa_Rica"
                               end))) reqs.
Proof.
  tool_case. run_client.
  eexists. split; [reflexivity|]. split; [apply Nat.le_refl|].
  constructor; [|constructor].
  unfold sent_request. cbn [RequestInit.method RequestInit.body Request.init].
  split; [reflexivity|].
  unfold MetricoolClient.schedulePost_body, or_else, toBoolean,
    ToBoolean_option, ToBoolean_string.
  cbn [SchedulePostParams.network SchedulePostParams.timezone SchedulePostParams.imageUrl
       SchedulePostParams.text SchedulePostParams.dateTime].
  destruct (Args.timezone typedArgs) as [t|];
    [destruct (String.eqb_spec t "") as [->|Ht]|];
    (destruct (Args.imageUrl typedArgs) as [u|];
     [destruct (String.eqb_spec u "") as [->|Hu]|]);
    cbn; try (apply String.eqb_neq in Ht; rewrite ?Ht); cbn;
    eexists; eexists; repeat split.
Qed.

Lemma scheduled_payload_json created :
  JSON_stringify (scheduled_payload created)
  = Some (JObj [ ("success", JBool true);
                 ("message", JStr "Post scheduled successfully");
                 ("postId", JNum (ScheduledPost.id created));
                 ("uuid", JStr (ScheduledPost.uuid created));
                 ("scheduledDate",
                   JStr (PublicationDate.dateTime (ScheduledPost.publicationDate created)));
                 ("networks",
                   JArr (map (fun p => JStr (Provider.network p))
                             (ScheduledPost.providers created))) ]).
Proof. unfold scheduled_payload. simpl. now rewrite map_map. Qed.

(** When the upstream answers with a 2xx response whose body has the
    declared type, [{ data: ScheduledPost }] with the id, uuid, publication
    date and providers of the created post, the schedule-post tool reports
    that post: its id, uuid and scheduled date-time, and the network of each
    of its providers, in their order.  (On such a post the optional chaining
    of the source finds every member, and an empty list of providers is
    itself the [networks].) *)
Theorem schedule_tool_reports_created_post env config typedArgs tr created :
  answers env TCreated {| data := created |} ->
  exists req result,
    callTool env config "metricool_schedule_post" typedArgs tr = ((tr ++ [req])%list, result)
    /\ CallToolResult.isError result = None
    /\ document result
       = Some (JObj [ ("success", JBool true);
                      ("message", JStr "Post scheduled successfully");
                      ("postId", JNum (ScheduledPost.id created));
                      ("uuid", JStr (ScheduledPost.uuid created));
                      ("scheduledDate",
                        JStr (PublicationDate.dateTime
                                (ScheduledPost.publicationDate created)));
                      ("networks",
                        JArr (map (fun p => JStr (Provider.network p))
                                  (ScheduledPost.providers created))) ]).
Proof.
  intros Ha.
  destruct (callTool_schedule_post env config created typedArgs tr Ha) as (req & Hcall).
  exists req. eexists. split; [exact Hcall|]. split; [reflexivity|].
  exact (scheduled_payload_json created).
Qed.

Lemma upstream_ok_created brands created scheduled posts slots :
  answers (upstream_ok brands created scheduled posts slots) TCreated {| data := created |}.
Proof. intros req. exists 200, "". split; [reflexivity|lia]. Qed.

Lemma schedule_tool_reports_created_post_witness :
  let created := post_with 9 [ provider "linkedin" "PENDING"; provider "twitter" "PENDING" ] in
  let env := upstream_ok [] created [] [] [] in
  answers env TCreated {| data := created |}
  /\ option_map (member "networks")
       (document (snd (callTool env a_config "metricool_schedule_post" sample_args [])))
     = Some (Some (JArr [ JStr "linkedin"; JStr "twitter" ])).
Proof.
  intros created env. split; [apply upstream_ok_created|].
  destruct (schedule_tool_reports_created_post env a_config sample_args [] created
              (upstream_ok_created _ _ _ _ _))
    as (req & result & Hcall & _ & Hdoc).
  rewrite Hcall. cbn [snd]. rewrite Hdoc. reflexivity.
Defined.

(** ** Deleting a scheduled post *)

(** [deleteScheduledPost] sends one DELETE request for the post, and reads
    the answer as JSON although it does not use it: on a 2xx answer it
    returns normally when the body parses, whatever it holds, and throws the
    parse error when it does not, as for an empty body. *)
Theorem delete_reads_the_body_as_json env config postId tr st txt j :
  let req := sent_request config
               ("/scheduler/post/" ++ postId ++ "?userId=" ++ MetricoolConfig.userId config)
               {| RequestInit.method := Some "DELETE";
                  RequestInit.body := None;
                  RequestInit.headers := None |} in
  fetch env TUnknown req
    = inr {| Response.status := st; Response.text := txt; Response.json := j |} ->
  200 <= st <= 299 ->
  MetricoolClient.deleteScheduledPost env config postId tr
  = ((tr ++ [req])%list,
     match j with
     | inl e => inl e
     | inr _ => inr tt
     end).
Proof.
  intros req Hf Hst. unfold MetricoolClient.deleteScheduledPost.
  rewrite bind_ret_run, request_run. unfold MetricoolClient.userId. fold req.
  rewrite Hf.
  unfold request_outcome, Response.ok. cbn [fst snd Response.status Response.json].
  replace ((200 <=? st) && (st <=? 299))%bool with true.
  - destruct j; reflexivity.
  - symmetry. apply andb_true_iff. split; apply Z.leb_le; lia.
Qed.

Lemma delete_reads_the_body_as_json_witness :
  200 <= 204 <= 299
  /\ snd (MetricoolClient.deleteScheduledPost
            (upstream_unparsable 204 (Error "Unexpected end of JSON input"))
            a_config "77" [])
     = inl (Error "Unexpected end of JSON input").
Proof.
  assert (H : 200 <= 204 <= 299) by lia.
  split; [exact H|].
  rewrite (delete_reads_the_body_as_json
             (upstream_unparsable 204 (Error "Unexpected end of JSON input"))
             a_config "77" [] 204 "" (inl (Error "Unexpected end of JSON input"))
             eq_refl H).
  reflexivity.
Defined.

(** ** The dates of an analytics request *)

Lemma hyphens_remove s : hyphens (remove_hyphens s) = O.
Proof.
  induction s as [|c s IH]; simpl; [reflexivity|].
  destruct (c =? "-")%char eqn:Hc; simpl; [assumption|now rewrite Hc].
Qed.

Lemma length_remove_hyphens s :
  (String.length (remove_hyphens s) + hyphens s)%nat = String.length s.
Proof.
  induction s as [|c s IH]; simpl; [reflexivity|].
  destruct (c =? "-")%char; simpl; lia.
Qed.

Lemma remove_hyphens_none s : hyphens s = O -> remove_hyphens s = s.
Proof.
  induction s as [|c s IH]; simpl; [reflexivity|].
  destruct (c =? "-")%char; [discriminate|]. intros H. now rewrite IH.
Qed.

(** [getAnalytics] sends the [start] and [end] parameters without any
    hyphen.  A date that is given and not empty is sent with its hyphens
    removed and nothing else changed, so that a [YYYY-MM-DD] date becomes
    eight characters; a date that is missing or empty is replaced by the
    first ten characters of the ISO form of the clock, thirty days back for
    [start], with their hyphens removed. *)
Theorem analytics_dates_compact env config params tr :
  exists start stop,
    fst (MetricoolClient.getAnalytics env config params tr)
    = (tr ++ [ sent_request config
                 ("/stats/linkedin/posts?"
                  ++ URLSearchParams_toString env
                       [ ("userId", MetricoolConfig.userId config);
                         ("blogId", AnalyticsParams.brandId params);
                         ("start", start); ("end", stop) ])
                 RequestInit.empty ])%list
    /\ hyphens start = O /\ hyphens stop = O
    /\ (forall s, AnalyticsParams.startDate params = Some s -> s <> "" ->
          start = remove_hyphens s
          /\ (String.length start + hyphens s)%nat = String.length s)
    /\ (forall s, AnalyticsParams.endDate params = Some s -> s <> "" ->
          stop = remove_hyphens s
          /\ (String.length stop + hyphens s)%nat = String.length s)
    /\ (AnalyticsParams.startDate params = None
        \/ AnalyticsParams.startDate params = Some "" ->
        start = remove_hyphens
                  (substring 0 10 (toISOString env (Date_now env - 2592000000))))
    /\ (AnalyticsParams.endDate params = None
        \/ AnalyticsParams.endDate params = Some "" ->
        stop = remove_hyphens (substring 0 10 (toISOString env (Date_now env)))).
Proof.
  unfold MetricoolClient.getAnalytics. rewrite request_run. cbn [fst].
  eexists. eexists. split; [reflexivity|].
  unfold toBoolean, ToBoolean_string.
  split; [|split; [|split; [|split; [|split]]]].
  - destruct (AnalyticsParams.startDate params) as [s|];
      [destruct (negb (s =? "")%string)|]; apply hyphens_remove.
  - destruct (AnalyticsParams.endDate params) as [s|];
      [destruct (negb (s =? "")%string)|]; apply hyphens_remove.
  - intros s -> Hs. apply String.eqb_neq in Hs. rewrite Hs. cbn [negb].
    split; [reflexivity|apply length_remove_hyphens].
  - intros s -> Hs. apply String.eqb_neq in Hs. rewrite Hs. cbn [negb].
    split; [reflexivity|apply length_remove_hyphens].
  - intros [->| ->]; reflexivity.
  - intros [->| ->]; reflexivity.
Qed.

Lemma analytics_dates_compact_witness :
  exists start stop,
    fst (MetricoolClient.getAnalytics (upstream_throws NonError) a_config
           {| AnalyticsParams.brandId := "42";
              AnalyticsParams.startDate := Some "2024-01-15";
              AnalyticsParams.endDate := None |} [])
    = [ sent_request a_config
          ("/stats/linkedin/posts?"
           ++ URLSearchParams_toString (upstream_throws NonError)
                [ ("userId", "7"); ("blogId", "42"); ("start", start); ("end", stop) ])
          RequestInit.empty ]
    /\ start = "20240115" /\ String.length start = 8%nat /\ stop = "20231114".
Proof.
  destruct (analytics_dates_compact (upstream_throws NonError) a_config
              {| AnalyticsParams.brandId := "42";
                 AnalyticsParams.startDate := Some "2024-01-15";
                 AnalyticsParams.endDate := None |} [])
    as (start & stop & Hreq & _ & _ & Hs & _ & _ & He).
  exists start, stop. split; [exact Hreq|].
  destruct (Hs "2024-01-15" eq_refl) as [Hstart _]; [discriminate|].
  specialize (He (or_introl eq_refl)).
  rewrite Hstart, He. repeat split.
Defined.

(** ** The listed scheduled posts *)

(** Every post that get-scheduled-posts lists has at least one provider:
    its [networks] list is not empty, and its [status] is the detailed
    status of its first provider, or "Unknown" when that is the empty
    string. *)
Theorem listed_post_has_provider posts p :
  In p (pendingPosts posts) ->
  exists prov rest,
    ScheduledPost.providers p = prov :: rest
    /\ member "networks" (to_json (pendingPost_view p))
       = Some (JArr (JStr (Provider.network prov)
                     :: map (fun q => JStr (Provider.network q)) rest))
    /\ member "status" (to_json (pendingPost_view p))
       = Some (JStr (if (Provider.detailedStatus prov =? "")%string then "Unknown"
                     else Provider.detailedStatus prov)).
Proof.
  intros Hin. unfold pendingPosts in Hin. apply filter_In in Hin.
  destruct Hin as [_ Hp]. unfold isPending in Hp.
  unfold to_json, pendingPost_view.
  destruct (ScheduledPost.providers p) as [|prov rest]; [discriminate|].
  exists prov, rest. split; [reflexivity|].
  cbn [hd_error option_map or_else].
  unfold toBoolean, ToBoolean_string.
  split.
  - simpl. now rewrite map_map.
  - destruct (Provider.detailedStatus prov =? "")%string; reflexivity.
Qed.

Lemma listed_post_has_provider_witness :
  let p := post_with 2 [ provider "linkedin" "ERROR"; provider "twitter" "PENDING" ] in
  In p (pendingPosts [ post_with 1 []; p ])
  /\ member "status" (to_json (pendingPost_view p)) = Some (JStr "ERROR").
Proof.
  intros p.
  assert (Hin : In p (pendingPosts [ post_with 1 []; p ])) by (simpl; tauto).
  split; [exact Hin|].
  destruct (listed_post_has_provider [ post_with 1 []; p ] p Hin)
    as (prov & rest & Hprov & _ & Hst).
  injection Hprov as <- <-. exact Hst.
Defined.

(** ** What the top five leave out *)

Lemma In_skipn {A} n (l : list A) x : In x (skipn n l) -> In x l.
Proof.
  intros Hx. rewrite <- (firstn_skipn n l). apply in_or_app. now right.
Qed.

Lemma descending_split {A} (key : A -> Z) n l :
  descending key l ->
  forall a b, In a (firstn n l) -> In b (skipn n l) -> key b <= key a.
Proof.
  unfold descending. intros Hs. revert n.
  induction Hs as [|x t Ht IH Hall]; intros n a b Ha Hb.
  - rewrite firstn_nil in Ha. contradiction.
  - destruct n as [|n]; simpl in Ha, Hb; [contradiction|].
    destruct Ha as [<-|Ha].
    + rewrite Forall_forall in Hall. apply Hall. now apply In_skipn in Hb.
    + now apply (IH n).
Qed.

Lemma top_and_rest {A} (key : A -> Z) n l :
  let sorted := Array_sort (by_key_descending key) l in
  Permutation (slice0 n sorted ++ skipn n sorted) l
  /\ List.length (slice0 n sorted) = Nat.min n (List.length l)
  /\ forall a b, In a (slice0 n sorted) -> In b (skipn n sorted) -> key b <= key a.
Proof.
  intros sorted. unfold slice0. split; [|split].
  - rewrite firstn_skipn. apply Array_sort_perm.
  - rewrite length_firstn. unfold sorted. now rewrite Array_sort_length.
  - apply descending_split. apply Array_sort_descending.
Qed.

(** The top lists leave out only what ranks no higher.  The slots of
    get-best-time that are not among [topSlots] have a score no greater than
    that of any listed slot, and together with the listed ones they are the
    input; there are five listed slots, or all of them when the input has
    fewer.  The same holds for [topPosts] and the engagement value. *)
Theorem top_five_dominate (slots : list BestTimeSlot.t) (posts : list LinkedInPost.t) :
  (exists rest,
      Permutation (topSlots slots ++ rest) slots
      /\ List.length (topSlots slots) = Nat.min 5 (List.length slots)
      /\ forall a b, In a (topSlots slots) -> In b rest ->
                     BestTimeSlot.score b <= BestTimeSlot.score a)
  /\
  (exists rest,
      Permutation (topPosts posts ++ rest) posts
      /\ List.length (topPosts posts) = Nat.min 5 (List.length posts)
      /\ forall a b, In a (topPosts posts) -> In b rest ->
                     engagementOf b <= engagementOf a).
Proof.
  split.
  - exists (skipn 5 (sortedSlots slots)).
    exact (top_and_rest BestTimeSlot.score 5 slots).
  - exists (skipn 5 (Array_sort byEngagement posts)).
    exact (top_and_rest engagementOf 5 posts).
Qed.

(** A list of slots that already comes in descending order of score is
    kept as it is, so that the listed slots are its first five; and sorting
    twice gives what sorting once gives. *)
Theorem sorted_input_kept (slots : list BestTimeSlot.t) :
  descending BestTimeSlot.score slots ->
  sortedSlots slots = slots
  /\ topSlots slots = firstn 5 slots
  /\ forall any, sortedSlots (sortedSlots any) = sortedSlots any.
Proof.
  intros Hd.
  assert (Hid : forall l, descending BestTimeSlot.score l -> sortedSlots l = l).
  { intros l Hl. symmetry.
    apply (stable_sort_unique BestTimeSlot.score l l Hl). reflexivity. }
  split; [now apply Hid|]. split.
  - unfold topSlots, slice0. now rewrite Hid.
  - intros any. apply Hid. apply (Array_sort_descending BestTimeSlot.score).
Qed.

Lemma sorted_input_kept_witness :
  let slots := [ slot 1 9 8; slot 2 10 8; slot 3 11 5 ] in
  descending BestTimeSlot.score slots /\ topSlots slots = slots.
Proof.
  intros slots.
  assert (Hd : descending BestTimeSlot.score slots).
  { unfold descending, slots. repeat constructor; simpl; lia. }
  split; [exact Hd|].
  destruct (sorted_input_kept slots Hd) as (_ & Htop & _).
  rewrite Htop. reflexivity.
Defined.

(** ** Nothing to list *)

Lemma callTool_scheduled_envelope env config d typedArgs tr :
  answers env TScheduled {| data := d |} ->
  exists req,
    callTool env config "metricool_get_scheduled_posts" typedArgs tr
    = ((tr ++ [req])%list,
       text_result false (pending_payload (match d with Some l => l | None => [] end))).
Proof.
  intros Ha. tool_case. rewrite try_catch_run, bind_ret_run.
  unfold MetricoolClient.getScheduledPosts. rewrite bind_ret_run.
  match goal with
  | |- context [MetricoolClient.request env config ?s ?e ?o tr] =>
      destruct (request_answers env config s _ e o tr Ha) as (req & ->)
  end.
  exists req. reflexivity.
Qed.

Lemma callTool_best_time_envelope env config d typedArgs tr :
  answers env TBestTimes {| data := d |} ->
  exists req,
    callTool env config "metricool_get_best_time" typedArgs tr
    = ((tr ++ [req])%list,
       text_result false (bestTime_payload (match d with Some l => l | None => [] end))).
Proof.
  intros Ha. tool_case. rewrite try_catch_run, bind_ret_run.
  unfold MetricoolClient.getBestTime. rewrite bind_ret_run.
  match goal with
  | |- context [MetricoolClient.request env config ?s ?e ?o tr] =>
      destruct (request_answers env config s _ e o tr Ha) as (req & ->)
  end.
  exists req. reflexivity.
Qed.

(** A 2xx answer without a [data] member is no error: get-scheduled-posts
    then reports a count of 0 and no posts, and get-best-time no slots.  An
    empty list of analytics records gives totals of zero, the rate "0.00%",
    a post count of 0 and no top posts. *)
Theorem missing_data_lists_nothing env config typedArgs tr :
  answers env TScheduled {| data := None |} ->
  answers env TBestTimes {| data := None |} ->
  answers env TPosts [] ->
  (exists req,
      callTool env config "metricool_get_scheduled_posts" typedArgs tr
      = ((tr ++ [req])%list,
         {| CallToolResult.content :=
              [ {| TextContent.type := "text";
                   TextContent.text :=
                     Some (JObj [ ("success", JBool true); ("count", JNum 0);
                                  ("posts", JArr []) ]) |} ];
            CallToolResult.isError := None |}))
  /\ (exists req,
      callTool env config "metricool_get_best_time" typedArgs tr
      = ((tr ++ [req])%list,
         {| CallToolResult.content :=
              [ {| TextContent.type := "text";
                   TextContent.text :=
                     Some (JObj [ ("success", JBool true);
                                  ("recommendation",
                                    JStr "Based on your audience engagement patterns, here are the best times to post:");
                                  ("topSlots", JArr []) ]) |} ];
            CallToolResult.isError := None |}))
  /\ (exists req,
      callTool env config "metricool_get_analytics" typedArgs tr
      = ((tr ++ [req])%list,
         {| CallToolResult.content :=
              [ {| TextContent.type := "text";
                   TextContent.text :=
                     Some (JObj [ ("success", JBool true);
                                  ("summary",
                                    JObj [ ("impressions", JNum 0); ("engagements", JNum 0);
                                           ("engagementRate", JStr "0.00%");
                                           ("clicks", JNum 0); ("likes", JNum 0);
                                           ("comments", JNum 0); ("shares", JNum 0) ]);
                                  ("postCount", JNum 0);
                                  ("topPosts", JArr []) ]) |} ];
            CallToolResult.isError := None |})).
Proof.
  intros Hs Hb Hp. split; [|split].
  - destruct (callTool_scheduled_envelope env config None typedArgs tr Hs) as (req & ->).
    exists req. reflexivity.
  - destruct (callTool_best_time_envelope env config None typedArgs tr Hb) as (req & ->).
    exists req. reflexivity.
  - destruct (callTool_get_analytics env config [] typedArgs tr Hp) as (req & ->).
    exists req. reflexivity.
Qed.

Lemma missing_data_lists_nothing_witness :
  answers upstream_no_data TScheduled {| data := None |}
  /\ answers upstream_no_data TBestTimes {| data := None |}
  /\ answers upstream_no_data TPosts []
  /\ option_map (member "count")
       (document (snd (callTool upstream_no_data a_config
                         "metricool_get_scheduled_posts" sample_args [])))
     = Some (Some (JNum 0)).
Proof.
  assert (H1 : answers upstream_no_data TScheduled {| data := None |})
    by (intros req; exists 200, "{}"; split; [reflexivity|lia]).
  assert (H2 : answers upstream_no_data TBestTimes {| data := None |})
    by (intros req; exists 200, "{}"; split; [reflexivity|lia]).
  assert (H3 : answers upstream_no_data TPosts [])
    by (intros req; exists 200, "{}"; split; [reflexivity|lia]).
  split; [exact H1|]. split; [exact H2|]. split; [exact H3|].
  destruct (missing_data_lists_nothing upstream_no_data a_config sample_args [] H1 H2 H3)
    as [(req & ->) _].
  reflexivity.
Defined.

(** ** The totals and the order of the records *)

Lemma sum_app l1 l2 : sum (l1 ++ l2) = sum l1 + sum l2.
Proof. unfold sum. induction l1 as [|x l IH]; simpl; lia. Qed.

Lemma sum_perm l1 l2 : Permutation l1 l2 -> sum l1 = sum l2.
Proof. unfold sum. induction 1; simpl; lia. Qed.

Lemma counts_exact_perm p q : Permutation p q -> counts_exact p -> counts_exact q.
Proof.
  unfold counts_exact. intros Hpq Hp.
  now rewrite <- (sum_perm _ _ (Permutation_map magnitude Hpq)).
Qed.

Lemma counts_exact_app r s :
  counts_exact (r ++ s) -> counts_exact r /\ counts_exact s.
Proof.
  unfold counts_exact. rewrite map_app, sum_app. intros Hb.
  pose proof (sum_magnitude_nonneg r). pose proof (sum_magnitude_nonneg s).
  split; lia.
Qed.

Lemma totals_app r s : totals (r ++ s) = Totals_plus (totals r) (totals s).
Proof.
  rewrite !totals_sums. unfold Totals_plus.
  cbn [Totals.impressions Totals.engagements Totals.clicks Totals.likes
       Totals.comments Totals.shares].
  rewrite !map_app, !sum_app. reflexivity.
Qed.

Lemma Totals64_plus_exact a b bound :
  Totals_magnitude a + Totals_magnitude b <= bound -> bound < 2 ^ 53 ->
  Totals64_plus (to_double_totals a) (to_double_totals b)
  = to_double_totals (Totals_plus a b).
Proof.
  intros H1 H2. unfold Totals64_plus, to_double_totals, Totals_plus.
  cbn [Totals64.impressions Totals64.engagements Totals64.clicks Totals64.likes
       Totals64.comments Totals64.shares
       Totals.impressions Totals.engagements Totals.clicks Totals.likes
       Totals.comments Totals.shares].
  unfold Totals_magnitude in H1.
  f_equal; apply (fadd_step _ _ bound); try exact H2; abs_opaque; lia.
Qed.

(** Beyond the exact range the order of the records does matter: a count of
    2^53 followed by two counts of 1 gives 2^53, each addition rounding back
    to it, and the same records with the large count last give 2^53 + 2. *)
Example totals64_order_beyond_exact_range :
  let big := with_counts (Some (2 ^ 53)) None None None None in
  let one := with_counts (Some 1) None None None None in
  Totals64.impressions (totals64 [big; one; one]) = to_double (2 ^ 53)
  /\ Totals64.impressions (totals64 [one; one; big]) = to_double (2 ^ 53 + 2)
  /\ to_double (2 ^ 53) <> to_double (2 ^ 53 + 2)
  /\ ~ counts_exact [big; one; one].
Proof.
  repeat split; try (vm_compute; reflexivity); vm_compute; discriminate.
Qed.

(** While the counts of the records are integers whose magnitudes add up to
    less than 2^53, the totals that the reduction computes in binary64 do not
    depend on the order in which the records come, and the totals of two
    lists put together are the totals of each, added field by field. *)
Theorem totals_independent_of_order (p q : list LinkedInPost.t) :
  Permutation p q ->
  counts_exact p ->
  totals64 p = totals64 q
  /\ forall r s, Permutation p (r ++ s) ->
       totals64 p = Totals64_plus (totals64 r) (totals64 s).
Proof.
  intros Hpq Hp.
  assert (Hsame : forall l, Permutation p l -> totals64 p = totals64 l).
  { intros l Hl.
    rewrite (totals64_exact p Hp), (totals64_exact l (counts_exact_perm p l Hl Hp)).
    rewrite !totals_sums. f_equal; f_equal; apply sum_perm, Permutation_map, Hl. }
  split; [apply Hsame, Hpq|].
  intros r s Hrs. rewrite (Hsame _ Hrs).
  pose proof (counts_exact_perm p _ Hrs Hp) as Hb.
  destruct (counts_exact_app r s Hb) as [Hr Hs].
  rewrite (totals64_exact _ Hb), (totals64_exact r Hr), (totals64_exact s Hs).
  rewrite totals_app. symmetry.
  apply (Totals64_plus_exact _ _ (sum (map magnitude (r ++ s)))); [|exact Hb].
  rewrite map_app, sum_app.
  pose proof (totals_magnitude r). pose proof (totals_magnitude s). lia.
Qed.

Lemma totals_independent_of_order_witness :
  let a := with_counts (Some 100) (Some 10) None (Some 0) (Some 3) in
  let b := with_counts (Some 50) None (Some 5) None None in
  Permutation [a; b] [b; a]
  /\ counts_exact [a; b]
  /\ totals64 [a; b] = totals64 [b; a]
  /\ Totals64.impressions (totals64 [a; b]) = to_double 150
  /\ totals64 [a; b] = Totals64_plus (totals64 [b]) (totals64 [a]).
Proof.
  intros a b.
  assert (Hp : Permutation [a; b] [b; a]) by apply perm_swap.
  assert (Hb : counts_exact [a; b]) by reflexivity.
  destruct (totals_independent_of_order [a; b] [b; a] Hp Hb) as [Heq Hplus].
  split; [exact Hp|]. split; [exact Hb|]. split; [exact Heq|].
  split; [reflexivity|].
  exact (Hplus [b] [a] Hp).
Defined.

(** ** The networks of a brand, as a set *)

Lemma NoDup_map_filter {A B} (g : A -> B) (f : A -> bool) l :
  NoDup (map g l) -> NoDup (map g (filter f l)).
Proof.
  induction l as [|x t IH]; simpl; intros Hnd; [constructor|].
  inversion Hnd as [|? ? Hx Ht]; subst.
  destruct (f x); simpl; [|now apply IH].
  constructor; [|now apply IH].
  intros Hin. apply Hx. apply in_map_iff in Hin. destruct Hin as (y & Hy & Hin).
  apply filter_In in Hin. apply in_map_iff. exists y. tauto.
Qed.

Lemma filter_nothing {A} (f : A -> bool) l :
  (forall x, In x l -> f x = false) -> filter f l = [].
Proof.
  induction l as [|x t IH]; simpl; intros Hf; [reflexivity|].
  rewrite (Hf x (or_introl eq_refl)). apply IH. intros y Hy. apply Hf. now right.
Qed.

(** The [networks] of a brand never name a network twice, name only the
    eight known networks, and so have at most eight entries; a brand with no
    handle at all gets the empty list. *)
Theorem brand_networks_distinct (b : Brand.t) :
  NoDup (networks b)
  /\ incl (networks b) network_names
  /\ (List.length (networks b) <= 8)%nat
  /\ ((forall nh, In nh (handles b) -> snd nh = None) -> networks b = []).
Proof.
  rewrite networks_nonempty. unfold networks_where.
  assert (Hnames : map fst (handles b) = network_names) by reflexivity.
  assert (Hnd : NoDup (map fst (filter (fun nh => nonempty (snd nh)) (handles b)))).
  { apply NoDup_map_filter. rewrite Hnames. unfold network_names.
    repeat constructor; simpl; intuition discriminate. }
  assert (Hincl : incl (map fst (filter (fun nh => nonempty (snd nh)) (handles b)))
                       network_names).
  { rewrite <- Hnames. intros x Hx. apply in_map_iff in Hx.
    destruct Hx as (y & <- & Hy). apply filter_In in Hy. apply in_map. tauto. }
  split; [exact Hnd|]. split; [exact Hincl|]. split.
  - change 8%nat with (List.length network_names).
    now apply NoDup_incl_length.
  - intros Hnone.
    rewrite filter_nothing; [reflexivity|].
    intros nh Hin. now rewrite (Hnone nh Hin).
Qed.

(** ** The members of a top post *)

Lemma stringify_or_opt (a b : option string) :
  JSON_stringify (opt_str (or_opt a b))
  = match a with
    | Some x => if (x =? "")%string then option_map JStr b else Some (JStr x)
    | None => option_map JStr b
    end.
Proof.
  unfold or_opt, toBoolean, ToBoolean_option, toBoolean, ToBoolean_string.
  destruct a as [x|]; [destruct (x =? "")%string|]; destruct b; reflexivity.
Qed.

(** The view of a top post always has [text], [impressions] and
    [engagements], the numbers being zero for a missing field.  Its [id] is
    the record's [id], or its [postId] when [id] is missing or empty, and it
    has no [id] member when that gives nothing; [publishedAt] is taken from
    [publishedAt] and [date] in the same way. *)
Theorem top_post_view_members (q : LinkedInPost.t) :
  let first_of (a b : option string) :=
    match a with
    | Some x => if (x =? "")%string then option_map JStr b else Some (JStr x)
    | None => option_map JStr b
    end in
  member "id" (to_json (topPost_view q))
    = first_of (LinkedInPost.id q) (LinkedInPost.postId q)
  /\ member "publishedAt" (to_json (topPost_view q))
    = first_of (LinkedInPost.publishedAt q) (LinkedInPost.date q)
  /\ member "impressions" (to_json (topPost_view q))
    = Some (JNum (or_zero (LinkedInPost.impressions q)))
  /\ member "engagements" (to_json (topPost_view q))
    = Some (JNum (first_nonzero (LinkedInPost.engagements q) (LinkedInPost.engagement q)))
  /\ exists t, member "text" (to_json (topPost_view q)) = Some (JStr t).
Proof.
  cbv zeta. unfold to_json, topPost_view, engagementOf.
  rewrite or_else_zero, or_opt_nonzero.
  cbn [JSON_stringify]. rewrite !stringify_or_opt.
  destruct (LinkedInPost.id q) as [i|]; [destruct (i =? "")%string|];
    (destruct (LinkedInPost.postId q) as [j|]);
    (destruct (LinkedInPost.publishedAt q) as [a|]; [destruct (a =? "")%string|]);
    (destruct (LinkedInPost.date q) as [d|]);
    cbn; repeat split; eexists; reflexivity.
Qed.

(** ** Success needs a 2xx answer *)

(** A tool call comes back without the error flag only when the one request
    it made was answered with a status from 200 to 299 and a body that
    parsed: a refusal or a failure of the upstream is never reported as a
    success. *)
Theorem success_needs_accepted_request env config name typedArgs tr :
  CallToolResult.isError (snd (callTool env config name typedArgs tr)) = None ->
  exists req s r,
    fst (callTool env config name typedArgs tr) = (tr ++ [req])%list
    /\ fetch env s req = inr r
    /\ 200 <= Response.status r <= 299
    /\ exists v, Response.json r = inr v.
Proof.
  switch_on name;
    try (run_client; unfold request_outcome;
         match goal with
         | |- context [fetch env ?s ?q] =>
             destruct (fetch env s q) as [e|r] eqn:Hf; [discriminate|];
             destruct (Response.ok r) eqn:Hok; [|discriminate];
             destruct (Response.json r) as [e|v] eqn:Hj; [discriminate|];
             intros _; exists q, s, r
         end;
         split; [reflexivity|]; split; [exact Hf|];
         unfold Response.ok in Hok; apply andb_true_iff in Hok;
         destruct Hok as [H1 H2]; apply Z.leb_le in H1, H2;
         split; [lia|]; now exists v).
  rewrite try_catch_run. discriminate.
Qed.

Lemma success_needs_accepted_request_witness :
  CallToolResult.isError
    (snd (callTool (upstream_ok [] a_post [] [] []) a_config "metricool_get_brands"
            sample_args [])) = None
  /\ exists req r,
       fetch (upstream_ok [] a_post [] [] []) TBrands req = inr r
       /\ Response.status r = 200.
Proof.
  split; [reflexivity|].
  destruct (success_needs_accepted_request (upstream_ok [] a_post [] [] []) a_config
              "metricool_get_brands" sample_args [] eq_refl)
    as (req & s & r & _ & _ & _ & _).
  exists req. eexists. split; reflexivity.
Defined.

(** ** Start-up *)

Lemma client_sends_token env config tr :
  let t := MetricoolConfig.token config in
  sends_token t tr (fst (MetricoolClient.getBrands env config tr))
  /\ (forall params,
        sends_token t tr (fst (MetricoolClient.schedulePost env config params tr)))
  /\ (forall brandId,
        sends_token t tr (fst (MetricoolClient.getScheduledPosts env config brandId tr)))
  /\ (forall params,
        sends_token t tr (fst (MetricoolClient.getAnalytics env config params tr)))
  /\ (forall brandId,
        sends_token t tr (fst (MetricoolClient.getBestTime env config brandId tr)))
  /\ (forall postId,
        sends_token t tr (fst (MetricoolClient.deleteScheduledPost env config postId tr))).
Proof.
  cbv zeta. unfold sends_token.
  repeat split; intros;
    unfold MetricoolClient.getBrands, MetricoolClient.schedulePost,
      MetricoolClient.getScheduledPosts, MetricoolClient.getAnalytics,
      MetricoolClient.getBestTime, MetricoolClient.deleteScheduledPost;
    try rewrite bind_ret_run; rewrite request_run;
    eexists; split; reflexivity.
Qed.

Lemma callTool_sends_token env config name typedArgs tr :
  exists reqs,
    fst (callTool env config name typedArgs tr) = (tr ++ reqs)%list
    /\ Forall (fun req =>
                 option_map (assoc "X-Mc-Auth") (RequestInit.headers (Request.init req))
                 = Some (Some (MetricoolConfig.token config))) reqs.
Proof.
  switch_on name;
    try (run_client; eexists; split; [reflexivity|]; repeat constructor).
  exists []. rewrite try_catch_run. cbn [fst ret]. rewrite app_nil_r.
  split; [reflexivity|constructor].
Qed.

(** The server is built exactly when both environment variables are set
    and not empty, with the token and the user id as given; in every other
    case the process exits with code 1.  The client that was built then
    sends the token, which is not empty, as the [X-Mc-Auth] header of the
    request of each of its six methods, and so of every request that a tool
    call makes. *)
Theorem start_requires_both_variables (tok uid : option string) :
  (exists config,
      start tok uid = Serving config
      /\ tok = Some (MetricoolConfig.token config)
      /\ uid = Some (MetricoolConfig.userId config)
      /\ MetricoolConfig.token config <> ""
      /\ MetricoolConfig.userId config <> ""
      /\ forall env tr,
           let t := MetricoolConfig.token config in
           sends_token t tr (fst (MetricoolClient.getBrands env config tr))
           /\ (forall params,
                 sends_token t tr (fst (MetricoolClient.schedulePost env config params tr)))
           /\ (forall brandId,
                 sends_token t tr
                   (fst (MetricoolClient.getScheduledPosts env config brandId tr)))
           /\ (forall params,
                 sends_token t tr (fst (MetricoolClient.getAnalytics env config params tr)))
           /\ (forall brandId,
                 sends_token t tr (fst (MetricoolClient.getBestTime env config brandId tr)))
           /\ (forall postId,
                 sends_token t tr
                   (fst (MetricoolClient.deleteScheduledPost env config postId tr)))
           /\ (forall name typedArgs,
                 exists reqs,
                   fst (callTool env config name typedArgs tr) = (tr ++ reqs)%list
                   /\ Forall (fun req =>
                                option_map (assoc "X-Mc-Auth")
                                  (RequestInit.headers (Request.init req))
                                = Some (Some t)) reqs))
  \/
  ((tok = None \/ tok = Some "" \/ uid = None \/ uid = Some "")
   /\ exists message, start tok uid = Exit message 1).
Proof.
  unfold start, toBoolean, ToBoolean_option, toBoolean, ToBoolean_string.
  destruct tok as [t|]; [destruct (String.eqb_spec t "") as [->|Ht]|];
    (destruct uid as [u|]; [destruct (String.eqb_spec u "") as [->|Hu]|]);
    cbn [negb orb]; try (right; split; [tauto|eexists; reflexivity]).
  left. exists {| MetricoolConfig.token := t; MetricoolConfig.userId := u |}.
  split; [reflexivity|]. split; [reflexivity|]. split; [reflexivity|].
  split; [exact Ht|]. split; [exact Hu|].
  intros env tr. cbv zeta.
  pose proof (client_sends_token env
                {| MetricoolConfig.token := t; MetricoolConfig.userId := u |} tr) as Hc.
  cbv zeta in Hc.
  destruct Hc as (H1 & H2 & H3 & H4 & H5 & H6).
  repeat (split; [assumption|]).
  intros name typedArgs. apply callTool_sends_token.
Qed.

(** ** The window of the scheduled posts *)

(** [getScheduledPosts] asks for the posts from the present moment to
    exactly sixty days later, each bound being the first 19 characters of
    its ISO form (the date and the time to the second, when the ISO form has
    its 24 characters), and always with the time zone
    "America/Costa_Rica". *)
Theorem scheduled_window_sixty_days env config brandId tr :
  exists start stop,
    fst (MetricoolClient.getScheduledPosts env config brandId tr)
    = (tr ++ [ sent_request config
                 ("/v2/scheduler/posts?"
                  ++ URLSearchParams_toString env
                       [ ("userId", MetricoolConfig.userId config);
                         ("blogId", brandId);
                         ("start", start); ("end", stop);
                         ("timezone", "America/Costa_Rica") ])
                 RequestInit.empty ])%list
    /\ start = substring 0 19 (toISOString env (Date_now env))
    /\ stop = substring 0 19 (toISOString env (Date_now env + 60 * 86400000))
    /\ (String.length start <= 19)%nat /\ (String.length stop <= 19)%nat
    /\ ((forall d, String.length (toISOString env d) = 24%nat) ->
        String.length start = 19%nat /\ String.length stop = 19%nat
        /\ starts_with start (toISOString env (Date_now env))).
Proof.
  unfold MetricoolClient.getScheduledPosts. rewrite bind_ret_run, request_run. cbn [fst].
  eexists. eexists. split; [reflexivity|].
  split; [reflexivity|]. split; [reflexivity|].
  rewrite !length_substring_0.
  split; [lia|]. split; [lia|].
  intros Hiso. rewrite !Hiso. repeat split. apply substring_0_prefix.
Qed.

Lemma scheduled_window_sixty_days_witness :
  (forall d, String.length (toISOString (upstream_throws NonError) d) = 24%nat)
  /\ exists start stop,
       fst (MetricoolClient.getScheduledPosts (upstream_throws NonError) a_config "42" [])
       = [ sent_request a_config
             ("/v2/scheduler/posts?"
              ++ URLSearchParams_toString (upstream_throws NonError)
                   [ ("userId", "7"); ("blogId", "42"); ("start", start); ("end", stop);
                     ("timezone", "America/Costa_Rica") ])
             RequestInit.empty ]
       /\ start = "2023-11-14T22:13:20" /\ String.length stop = 19%nat.
Proof.
  assert (Hiso : forall d, String.length (toISOString (upstream_throws NonError) d) = 24%nat)
    by (intros d; reflexivity).
  split; [exact Hiso|].
  destruct (scheduled_window_sixty_days (upstream_throws NonError) a_config "42" [])
    as (start & stop & Hreq & Hstart & _ & _ & _ & Hlen).
  exists start, stop. split; [exact Hreq|]. split; [exact Hstart|].
  now destruct (Hlen Hiso) as (_ & Hstop & _).
Defined.
